(** * GopenGL, package [graphics]: render objects and coordinate mapping

    A shallow embedding of [graphics/graphics.go]: the viewport globals, the
    registry of render objects, the slot allocation of [AddSquare], the
    in-place updates [Modify*Square] / [ClearSquare], the frame loop
    [Render] and the coordinate mapper [PixToScreen].

    Conventions.
    - Go's [int] is taken at its 64-bit width; every [+] and [-] of the
      source on an [int] is written with its wrap-around ([int_add],
      [int_sub]).  [uint32(...)] and [int32] values wrap likewise.
    - [float32] is IEEE-754 binary32, computed with the Standard Library's
      [SpecFloat] operations at precision 24 and maximal exponent 128
      (round to nearest, ties to even), so every float of the source is a
      value one can evaluate.
    - Pointers to render objects are locations of a store; the registry
      [renderObjects] holds locations, so a write through one pointer is
      seen through every alias.
    - A Go panic is an outcome of its own that carries the state at the
      moment of the panic. *)

From Stdlib Require Import ZArith Lia Bool List.
From Stdlib Require Import Floats.SpecFloat.
From stdpp Require Import base option list gmap strings.

Local Open Scope Z_scope.

(** ** Machine integers *)

Definition int_bits : Z := 64.
Definition int_max : Z := 2 ^ 63 - 1.
Definition int_min : Z := - 2 ^ 63.

(** Two's-complement wrap-around of a mathematical integer to [bits] bits. *)
Definition wrap_signed (bits : Z) (z : Z) : Z :=
  (z + 2 ^ (bits - 1)) mod 2 ^ bits - 2 ^ (bits - 1).

Definition int_wrap (z : Z) : Z := wrap_signed int_bits z.
Definition int_add (a b : Z) : Z := int_wrap (a + b).
Definition int_sub (a b : Z) : Z := int_wrap (a - b).

(** A value of Go type [int]. *)
Definition is_int (z : Z) : Prop := int_min <= z <= int_max.

(** The conversions [uint32(x)] and [int32(x)]. *)
Definition to_uint32 (z : Z) : Z := z mod 2 ^ 32.
Definition to_int32 (z : Z) : Z := wrap_signed 32 z.
Definition int32_max : Z := 2 ^ 31 - 1.

(** ** float32 *)

Definition float32 : Type := spec_float.

Definition f32_prec : Z := 24.
Definition f32_emax : Z := 128.

Definition f32_add : float32 -> float32 -> float32 := SFadd f32_prec f32_emax.
Definition f32_sub : float32 -> float32 -> float32 := SFsub f32_prec f32_emax.
Definition f32_div : float32 -> float32 -> float32 := SFdiv f32_prec f32_emax.

(** An integer constant of the source converted to [float32]. *)
Definition f32_of_Z (z : Z) : float32 := binary_normalize f32_prec f32_emax z 0 false.

(** [m * 2^e] is a float32 in canonical form. *)
Definition f32_bounded (m : positive) (e : Z) : bool := bounded f32_prec f32_emax m e.

Definition f32_zero : float32 := S754_zero false.
Definition f32_one : float32 := f32_of_Z 1.
Definition f32_two : float32 := f32_of_Z 2.
Definition f32_minus_one : float32 := SFopp f32_one.

Declare Scope f32_scope.
Delimit Scope f32_scope with f32.
Infix "+" := f32_add : f32_scope.
Infix "-" := f32_sub : f32_scope.
Infix "/" := f32_div : f32_scope.

(** ** The GPU surface

    Package [gopengl/graphics/opengl] (types [VAO] and [Texture]) is not among
    the sources.  What the texture does is taken as a parameter; the vertex
    array object is modelled from the spec below. *)

Class Surface := {
  (** [*opengl.Texture] *)
  Texture : Type;
  (** the texture that [opengl.CreateVAO] binds for a texture name, if any *)
  LoadTexture : string -> option Texture;
  (** [Texture.PixToTex]: pixel coordinates to texture coordinates *)
  PixToTex : Texture -> list float32 -> list float32
}.

(** Modelled from the spec: [opengl.VAO] is missing.  The spec's GPU surface
    owns, per object, a buffer of vertices that each store a 2D position and
    a 2D texture coordinate, [WriteVertexRange(buffer, startIndex, positions,
    uvs)], [SetTransform] and [Draw(buffer, vertexCount)], and performs no
    bounds validation of its own.  Positions and texture coordinates are kept
    as two maps from float slots to values, vertex [i] occupying slots [2*i]
    and [2*i+1] of each.  [vao_count] is the number of vertices the object
    draws: the spec has [Render] cover vertex 0 through [freeVertexOffset],
    which the VAO can only know from the allocating write
    [UpdateBufferIndex], so that write records the end of its range (an
    [int], like the index it is given). *)
Record VAO `{Surface} := mkVAO {
  vao_size : Z;                              (* uint32 *)
  vao_texture : Texture;
  vao_defaultShader : bool;
  vao_verts : gmap Z float32;
  vao_texs : gmap Z float32;
  vao_count : Z;
  vao_translation : float32 * float32;
  vao_rotation : float32 * float32 * float32
}.

(** [buf[start+j] = vals[j]] for every [j]. *)
Fixpoint write_range (buf : gmap Z float32) (start : Z) (vals : list float32)
  : gmap Z float32 :=
  match vals with
  | [] => buf
  | v :: rest => write_range (<[start := v]> buf) (start + 1) rest
  end.

Section VAO.
Context `{Surface}.

(** Modelled from the spec: [opengl.CreateVAO] followed by [CreateBuffers],
    "allocates a GPU buffer sized for capacity vertices, binds the named
    texture, selects a shader program". *)
Definition CreateVAO (size : Z) (tex : Texture) (defaultShader : bool) : VAO :=
  {| vao_size := size; vao_texture := tex; vao_defaultShader := defaultShader;
     vao_verts := ∅; vao_texs := ∅; vao_count := 0;
     vao_translation := (f32_zero, f32_zero);
     vao_rotation := (f32_zero, f32_zero, f32_zero) |}.

(** Modelled from the spec: [UpdateVertBufferIndex] overwrites the position
    slots of the range starting at vertex [index]; texture coordinates are
    untouched. *)
Definition UpdateVertBufferIndex (v : VAO) (index : Z) (verts : list float32) : VAO :=
  {| vao_size := vao_size v; vao_texture := vao_texture v;
     vao_defaultShader := vao_defaultShader v;
     vao_verts := write_range (vao_verts v) (2 * index) verts;
     vao_texs := vao_texs v; vao_count := vao_count v;
     vao_translation := vao_translation v; vao_rotation := vao_rotation v |}.

(** Modelled from the spec: [UpdateTexBufferIndex], "same, for UV
    coordinates only". *)
Definition UpdateTexBufferIndex (v : VAO) (index : Z) (texs : list float32) : VAO :=
  {| vao_size := vao_size v; vao_texture := vao_texture v;
     vao_defaultShader := vao_defaultShader v;
     vao_verts := vao_verts v;
     vao_texs := write_range (vao_texs v) (2 * index) texs;
     vao_count := vao_count v;
     vao_translation := vao_translation v; vao_rotation := vao_rotation v |}.

(** Modelled from the spec: [UpdateBufferIndex] is
    [WriteVertexRange(buffer, startIndex, positions, uvs)]; it is the
    allocating write, so the drawn count becomes the end of its range. *)
Definition UpdateBufferIndex (v : VAO) (index : Z) (verts texs : list float32) : VAO :=
  {| vao_size := vao_size v; vao_texture := vao_texture v;
     vao_defaultShader := vao_defaultShader v;
     vao_verts := write_range (vao_verts v) (2 * index) verts;
     vao_texs := write_range (vao_texs v) (2 * index) texs;
     vao_count := int_add index (Z.of_nat (length verts) / 2);
     vao_translation := vao_translation v; vao_rotation := vao_rotation v |}.

(** Modelled from the spec: one translation and one rotation per object,
    "calling again replaces, does not compose". *)
Definition VAO_SetTranslation (v : VAO) (x y : float32) : VAO :=
  {| vao_size := vao_size v; vao_texture := vao_texture v;
     vao_defaultShader := vao_defaultShader v;
     vao_verts := vao_verts v; vao_texs := vao_texs v; vao_count := vao_count v;
     vao_translation := (x, y); vao_rotation := vao_rotation v |}.

Definition VAO_SetRotation (v : VAO) (x y rad : float32) : VAO :=
  {| vao_size := vao_size v; vao_texture := vao_texture v;
     vao_defaultShader := vao_defaultShader v;
     vao_verts := vao_verts v; vao_texs := vao_texs v; vao_count := vao_count v;
     vao_translation := vao_translation v; vao_rotation := (x, y, rad) |}.

(** Modelled from the spec: [VAO.PrepRender] returns, as an [int32], the
    number of vertices to draw. *)
Definition VAO_PrepRender (v : VAO) : Z := to_int32 (vao_count v).
End VAO.

(** ** Program state *)

(** A pointer to a render object. *)
Definition loc : Type := positive.

(** Calls that reach the graphics API, in the order they are issued.
    [GL_DrawArrays] records the location of the object whose VAO is bound
    when the call is made. *)
Inductive GLCall :=
| GL_ClearColor (r g b a : float32)
| GL_Clear
| GL_DrawArrays (bound : option loc) (first count : Z)   (* mode gl.TRIANGLES *)
| GL_Poll.

Section Graphics.
Context `{Surface}.

Record RenderObject := mkRenderObject {
  vao : VAO;
  texture : Texture;
  freeVert : Z;                                          (* int *)
  maxVert : Z                                            (* int *)
}.

(** The package-level variables, the store of render objects, the calls
    issued so far and the lines written by [fmt.Println] (each line kept
    as the value printed). *)
Record World := mkWorld {
  windowWidth : float32;
  windowHeight : float32;
  renderObjects : list loc;
  heap : gmap loc RenderObject;
  bound_vao : option loc;
  gl_calls : list GLCall;
  stdout : list float32
}.

(** [var windowWidth float32 = 800], [var windowHeight float32 = 600],
    [var renderObjects = make([]*RenderObject, 0)]. *)
Definition initial_world : World :=
  {| windowWidth := f32_of_Z 800; windowHeight := f32_of_Z 600;
     renderObjects := []; heap := ∅; bound_vao := None;
     gl_calls := []; stdout := [] |}.

Inductive Result (A : Type) :=
| Ok (a : A) (w : World)
| Panic (msg : string) (w : World).
Global Arguments Ok {A} a w.
Global Arguments Panic {A} msg w.

Definition M (A : Type) : Type := World -> Result A.

Definition ret {A} (a : A) : M A := fun w => Ok a w.
Definition bind {A B} (m : M A) (k : A -> M B) : M B :=
  fun w => match m w with
           | Ok a w' => k a w'
           | Panic msg w' => Panic msg w'
           end.
Definition panic {A} (msg : string) : M A := fun w => Panic msg w.

Definition nil_dereference : string :=
  "invalid memory address or nil pointer dereference".

(** Reading through a pointer; a location that holds no created object
    stands for a nil pointer. *)
Definition load (l : loc) : M RenderObject :=
  fun w => match heap w !! l with
           | Some o => Ok o w
           | None => Panic nil_dereference w
           end.

Definition set_heap (h : gmap loc RenderObject) (w : World) : World :=
  {| windowWidth := windowWidth w; windowHeight := windowHeight w;
     renderObjects := renderObjects w; heap := h; bound_vao := bound_vao w;
     gl_calls := gl_calls w; stdout := stdout w |}.

Definition store (l : loc) (o : RenderObject) : M unit :=
  fun w => Ok tt (set_heap (<[l := o]> (heap w)) w).

Definition set_vao (o : RenderObject) (v : VAO) : RenderObject :=
  {| vao := v; texture := texture o; freeVert := freeVert o; maxVert := maxVert o |}.

Definition set_freeVert (o : RenderObject) (n : Z) : RenderObject :=
  {| vao := vao o; texture := texture o; freeVert := n; maxVert := maxVert o |}.

Definition gl_call (c : GLCall) : M unit :=
  fun w => Ok tt {| windowWidth := windowWidth w; windowHeight := windowHeight w;
                    renderObjects := renderObjects w; heap := heap w;
                    bound_vao := bound_vao w;
                    gl_calls := gl_calls w ++ [c]; stdout := stdout w |}.

Definition set_bound (b : option loc) : M unit :=
  fun w => Ok tt {| windowWidth := windowWidth w; windowHeight := windowHeight w;
                    renderObjects := renderObjects w; heap := heap w;
                    bound_vao := b;
                    gl_calls := gl_calls w; stdout := stdout w |}.

Definition println (v : float32) : M unit :=
  fun w => Ok tt {| windowWidth := windowWidth w; windowHeight := windowHeight w;
                    renderObjects := renderObjects w; heap := heap w;
                    bound_vao := bound_vao w;
                    gl_calls := gl_calls w; stdout := stdout w ++ [v] |}.

(** Sequencing is written with stdpp's monad notations:
    [x ← m; k] and [m;; k]. *)
Global Instance M_ret : MRet M := @ret.
Global Instance M_bind : MBind M := fun A B k m => bind m k.

(** The current value of a package-level variable. *)
Definition gets {A} (f : World -> A) : M A := fun w => Ok (f w) w.

(** ** Setup *)

Definition SetWindowSize (width height : float32) : M unit :=
  fun w => Ok tt {| windowWidth := width; windowHeight := height;
                    renderObjects := renderObjects w; heap := heap w;
                    bound_vao := bound_vao w;
                    gl_calls := gl_calls w; stdout := stdout w |}.

(** ** Utility methods *)

(** The loop of [PixToScreen]: [i] is the index of the head of [coords],
    [even] the flag before the iteration, [normed] the result slice. *)
Fixpoint PixToScreen_loop (halfWidth halfHeight : float32) (i : nat) (even : bool)
    (coords normed : list float32) : M (list float32) :=
  match coords with
  | [] => ret normed
  | coord :: rest =>
      let even := negb even in
      if even then
        let v := ((coord - halfWidth) / halfWidth)%f32 in
        println v;;
        PixToScreen_loop halfWidth halfHeight (S i) even rest (<[i := v]> normed)
      else
        let v := ((coord - halfHeight) / halfHeight)%f32 in
        PixToScreen_loop halfWidth halfHeight (S i) even rest (<[i := v]> normed)
  end.

Definition PixToScreen (coords : list float32) : M (list float32) :=
  let normedCoords := replicate (length coords) f32_zero in
  width ← gets windowWidth;
  height ← gets windowHeight;
  let halfWidth := (width / f32_two)%f32 in
  let halfHeight := (height / f32_two)%f32 in
  PixToScreen_loop halfWidth halfHeight 0 false coords normedCoords.

(** ** Creation *)

Definition texture_not_found : string := "texture not found".

(** [renderObjects = append(renderObjects, obj)] *)
Definition register (obj : loc) : M unit :=
  fun w => Ok tt {| windowWidth := windowWidth w; windowHeight := windowHeight w;
                    renderObjects := renderObjects w ++ [obj]; heap := heap w;
                    bound_vao := bound_vao w;
                    gl_calls := gl_calls w; stdout := stdout w |}.

Definition CreateRenderObject (obj : loc) (size : Z) (tex : string)
    (defaultShader : bool) : M unit :=
  match LoadTexture tex with
  | None => panic texture_not_found
  | Some t =>
      let v := CreateVAO (to_uint32 size) t defaultShader in
      store obj {| vao := v; texture := vao_texture v;
                   freeVert := 0; maxVert := size |};;
      register obj
  end.

(** ** Render object methods *)

Definition RenderObject_PrepRender (obj : loc) : M Z :=
  o ← load obj;
  set_bound (Some obj);;
  ret (VAO_PrepRender (vao o)).

Definition RenderObject_FinishRender (obj : loc) : M unit :=
  load obj;;
  set_bound None.

Definition RenderObject_Render (obj : loc) : M unit :=
  vertNum ← RenderObject_PrepRender obj;
  b ← gets bound_vao;
  gl_call (GL_DrawArrays b 0 vertNum);;
  RenderObject_FinishRender obj.

Fixpoint Render_loop (objs : list loc) : M unit :=
  match objs with
  | [] => ret tt
  | obj :: rest => RenderObject_Render obj;; Render_loop rest
  end.

Definition Render : M unit :=
  gl_call (GL_ClearColor f32_zero f32_zero f32_zero f32_one);;
  gl_call GL_Clear;;
  objs ← gets renderObjects;
  Render_loop objs;;
  gl_call GL_Poll.

Definition overflow_message : string := "Render Object Buffer overflow".

Definition AddSquare (obj : loc) (x y xTex yTex width widthTex : float32) : M Z :=
  let verts := [ x; y;
                 x + width; y;
                 x + width; y - width;
                 x; y;
                 x + width; y - width;
                 x; y - width ]%f32 in
  let texs := [ xTex; yTex;
                xTex + widthTex; yTex;
                xTex + widthTex; yTex + widthTex;
                xTex; yTex;
                xTex + widthTex; yTex + widthTex;
                xTex; yTex + widthTex ]%f32 in
  verts ← PixToScreen verts;
  o ← load obj;
  let texs := PixToTex (texture o) texs in
  if int_add (freeVert o) 6 >? maxVert o then panic overflow_message
  else
    let o1 := set_vao o (UpdateBufferIndex (vao o) (freeVert o) verts texs) in
    let o2 := set_freeVert o1 (int_add (freeVert o1) 6) in
    store obj o2;;
    ret (int_sub (freeVert o2) 6).

Definition ModifyVertSquare (obj : loc) (index : Z) (x y width : float32) : M unit :=
  let verts := [ x; y;
                 x + width; y;
                 x + width; y + width;
                 x; y;
                 x + width; y + width;
                 x; y + width ]%f32 in
  verts ← PixToScreen verts;
  o ← load obj;
  store obj (set_vao o (UpdateVertBufferIndex (vao o) index verts)).

Definition ModifyTexSquare (obj : loc) (index : Z) (xTex yTex widthTex : float32) : M unit :=
  let texs := [ xTex; yTex;
                xTex + widthTex; yTex;
                xTex + widthTex; yTex + widthTex;
                xTex; yTex;
                xTex + widthTex; yTex + widthTex;
                xTex; yTex + widthTex ]%f32 in
  o ← load obj;
  let texs := PixToTex (texture o) texs in
  store obj (set_vao o (UpdateTexBufferIndex (vao o) index texs)).

Definition ModifySquare (obj : loc) (index : Z) (x y xTex yTex width widthTex : float32)
  : M unit :=
  ModifyVertSquare obj index x y width;;
  ModifyTexSquare obj index xTex yTex widthTex.

Definition ClearSquare (obj : loc) (index : Z) : M unit :=
  ModifyVertSquare obj index (f32_of_Z 0) (f32_of_Z 0) (f32_of_Z 0).

Definition RotateSquare (obj : loc) (x y rad : float32) : M unit :=
  o ← load obj;
  store obj (set_vao o (VAO_SetRotation (vao o) x y rad)).

Definition TranslateSquare (obj : loc) (x y : float32) : M unit :=
  o ← load obj;
  store obj (set_vao o (VAO_SetTranslation (vao o) x y)).

(** ** Sequences of calls *)

(** The six arguments of one [AddSquare] call. *)
Record SquareArgs := mkSquareArgs {
  sq_x : float32; sq_y : float32;
  sq_xTex : float32; sq_yTex : float32;
  sq_width : float32; sq_widthTex : float32
}.

Definition AddSquare' (obj : loc) (a : SquareArgs) : M Z :=
  AddSquare obj (sq_x a) (sq_y a) (sq_xTex a) (sq_yTex a) (sq_width a) (sq_widthTex a).

(** Successive [AddSquare] calls on one object; the indices they return. *)
Fixpoint AddSquares (obj : loc) (calls : list SquareArgs) : M (list Z) :=
  match calls with
  | [] => mret []
  | a :: rest =>
      i ← AddSquare' obj a;
      js ← AddSquares obj rest;
      mret (i :: js)
  end.

(** A call of the package's interface after creation. *)
Inductive Op :=
| OpAddSquare (obj : loc) (a : SquareArgs)
| OpModifyVertSquare (obj : loc) (index : Z) (x y width : float32)
| OpModifyTexSquare (obj : loc) (index : Z) (xTex yTex widthTex : float32)
| OpModifySquare (obj : loc) (index : Z) (x y xTex yTex width widthTex : float32)
| OpClearSquare (obj : loc) (index : Z)
| OpRotateSquare (obj : loc) (x y rad : float32)
| OpTranslateSquare (obj : loc) (x y : float32)
| OpRenderObject (obj : loc)
| OpRender
| OpSetWindowSize (width height : float32).

Definition run_op (op : Op) : M unit :=
  match op with
  | OpAddSquare obj a => AddSquare' obj a;; mret tt
  | OpModifyVertSquare obj i x y width => ModifyVertSquare obj i x y width
  | OpModifyTexSquare obj i xTex yTex widthTex => ModifyTexSquare obj i xTex yTex widthTex
  | OpModifySquare obj i x y xTex yTex width widthTex =>
      ModifySquare obj i x y xTex yTex width widthTex
  | OpClearSquare obj i => ClearSquare obj i
  | OpRotateSquare obj x y rad => RotateSquare obj x y rad
  | OpTranslateSquare obj x y => TranslateSquare obj x y
  | OpRenderObject obj => RenderObject_Render obj
  | OpRender => Render
  | OpSetWindowSize width height => SetWindowSize width height
  end.

Fixpoint run_ops (ops : list Op) : M unit :=
  match ops with
  | [] => mret tt
  | op :: rest => run_op op;; run_ops rest
  end.

(** A call of the interface, creation included. *)
Inductive Call :=
| CallCreate (obj : loc) (size : Z) (tex : string) (defaultShader : bool)
| CallOp (op : Op).

Definition run_call (c : Call) : M unit :=
  match c with
  | CallCreate obj size tex defaultShader => CreateRenderObject obj size tex defaultShader
  | CallOp op => run_op op
  end.

Fixpoint run_calls (cs : list Call) : M unit :=
  match cs with
  | [] => mret tt
  | c :: rest => run_call c;; run_calls rest
  end.

(** ** The coordinate mapping, position by position *)

(** What the loop of [PixToScreen] stores for [coords], [even] being the
    flag before the first of them. *)
Fixpoint normed_from (halfWidth halfHeight : float32) (even : bool)
    (coords : list float32) : list float32 :=
  match coords with
  | [] => []
  | coord :: rest =>
      let even := negb even in
      (if even then (coord - halfWidth) / halfWidth
       else (coord - halfHeight) / halfHeight)%f32
      :: normed_from halfWidth halfHeight even rest
  end.

(** What it prints. *)
Fixpoint printed_from (halfWidth : float32) (even : bool)
    (coords : list float32) : list float32 :=
  match coords with
  | [] => []
  | coord :: rest =>
      let even := negb even in
      if even then ((coord - halfWidth) / halfWidth)%f32 :: printed_from halfWidth even rest
      else printed_from halfWidth even rest
  end.

Definition add_stdout (out : list float32) (w : World) : World :=
  {| windowWidth := windowWidth w; windowHeight := windowHeight w;
     renderObjects := renderObjects w; heap := heap w; bound_vao := bound_vao w;
     gl_calls := gl_calls w; stdout := stdout w ++ out |}.

Definition halfWidth (w : World) : float32 := (windowWidth w / f32_two)%f32.
Definition halfHeight (w : World) : float32 := (windowHeight w / f32_two)%f32.

(** The pixel-space corners that [AddSquare] and [ModifyVertSquare] build. *)
Definition AddSquare_verts (x y width : float32) : list float32 :=
  [ x; y; x + width; y; x + width; y - width;
    x; y; x + width; y - width; x; y - width ]%f32.

Definition ModifyVertSquare_verts (x y width : float32) : list float32 :=
  [ x; y; x + width; y; x + width; y + width;
    x; y; x + width; y + width; x; y + width ]%f32.

Definition square_texs (xTex yTex widthTex : float32) : list float32 :=
  [ xTex; yTex; xTex + widthTex; yTex; xTex + widthTex; yTex + widthTex;
    xTex; yTex; xTex + widthTex; yTex + widthTex; xTex; yTex + widthTex ]%f32.

(** The world in which a panic or a return of a method leaves the
    program, without the lines printed on the way. *)
Definition same_but_stdout (w w' : World) : Prop :=
  windowWidth w' = windowWidth w /\ windowHeight w' = windowHeight w /\
  renderObjects w' = renderObjects w /\ heap w' = heap w /\
  bound_vao w' = bound_vao w /\ gl_calls w' = gl_calls w.

(** The object that a successful [AddSquare] stores: the range at
    [freeVert] written, [freeVert] advanced. *)
Definition allocated (o : RenderObject) (verts texs : list float32) : RenderObject :=
  set_freeVert (set_vao o (UpdateBufferIndex (vao o) (freeVert o) verts texs))
               (int_add (freeVert o) 6).

Definition set_bound_calls (b : option loc) (calls : list GLCall) (w : World) : World :=
  {| windowWidth := windowWidth w; windowHeight := windowHeight w;
     renderObjects := renderObjects w; heap := heap w; bound_vao := b;
     gl_calls := calls; stdout := stdout w |}.

(** The indices [start], [start + 6], ... of [n] consecutive squares. *)
Fixpoint slot_indices (start : Z) (n : nat) : list Z :=
  match n with
  | O => []
  | S n' => start :: slot_indices (start + 6) n'
  end.

(** A computation that, when it returns, leaves the registry as it was,
    creates no object, and takes every object of the store to one related
    to it by [R]. *)
Definition relates (R : RenderObject -> RenderObject -> Prop) {A} (m : M A) : Prop :=
  forall w a w', m w = Ok a w' ->
    renderObjects w' = renderObjects w /\
    (forall l o, heap w !! l = Some o -> exists o', heap w' !! l = Some o' /\ R o o') /\
    (forall l, heap w !! l = None -> heap w' !! l = None).

(** The invariant of an object created with capacity [C]. *)
Definition slot_inv (C : Z) (o : RenderObject) : Prop :=
  0 <= freeVert o <= maxVert o /\ maxVert o = C /\ freeVert o mod 6 = 0.

(** The drawn count kept by the VAO is the object's [freeVert]. *)
Definition count_inv (o : RenderObject) : Prop := vao_count (vao o) = freeVert o.

(** Every object of the store has its count right, and every registered
    pointer is to an object of the store. *)
Definition registry_inv (w : World) : Prop :=
  (forall l o, heap w !! l = Some o -> count_inv o) /\
  (forall l, l ∈ renderObjects w -> is_Some (heap w !! l)).

(** The draw call that [Render] issues for the object at [l]. *)
Definition draw_of (w : World) (l : loc) (c : GLCall) : Prop :=
  exists o, heap w !! l = Some o /\ c = GL_DrawArrays (Some l) 0 (to_int32 (freeVert o)).

(** The same, when the count is the object's [freeVert] itself. *)
Definition draws_range (w : World) (l : loc) (c : GLCall) : Prop :=
  exists o, heap w !! l = Some o /\ c = GL_DrawArrays (Some l) 0 (freeVert o).

(** The state in which a call ends, returned or panicked. *)
Definition result_world {A} (r : Result A) : World :=
  match r with
  | Ok _ w => w
  | Panic _ w => w
  end.

Definition returns {A} (r : Result A) : bool :=
  match r with
  | Ok _ _ => true
  | Panic _ _ => false
  end.

End Graphics.

(** ** Viewport sizes whose half is exact *)

(** [2^-125], the least float32 whose half is a normal number. *)
Definition f32_least_halvable : float32 := S754_finite false 8388608 (-148).

Definition f32_is_finite (x : float32) : bool :=
  match x with
  | S754_finite _ _ _ => true
  | _ => false
  end.

(** A finite float32 value (in canonical form) of at least [2^-125]. *)
Definition viewport_dim_ok (x : float32) : bool :=
  valid_binary f32_prec f32_emax x && f32_is_finite x
  && SFleb f32_least_halvable x.

Definition f32_is_zero (x : float32) : bool :=
  match x with
  | S754_zero _ => true
  | _ => false
  end.

(** [0 < x], the comparison of the floats. *)
Definition f32_pos (x : float32) : bool := SFltb f32_zero x.

(** The least positive float32, [2^-149]. *)
Definition f32_least_positive : float32 := S754_finite false 1 (-149).

(** The number of squares that fit below [2^63]: [6 * last_slot_count] is
    [2^63 - 2], the greatest multiple of 6 that is an [int]. *)
Definition last_slot_count : nat := Z.to_nat 1537228672809129301.

(** The least number of squares that take [freeVert] past [2^31 - 1]. *)
Definition int32_slot_count : nat := Z.to_nat 357913942.

(** ** A surface to evaluate on

    Textures carry their width and height in pixels, and [PixToTex] divides
    each x by the width and each y by the height. *)
#[export] Instance plain_surface : Surface := {|
  Texture := float32 * float32;
  LoadTexture := fun name =>
    match name with
    | EmptyString => None
    | _ => Some (f32_of_Z 64, f32_of_Z 64)
    end;
  PixToTex := fun t coords =>
    imap (fun i c => if Nat.even i then (c / fst t)%f32 else (c / snd t)%f32) coords
|}.

(** The square of the spec's scenario: [AddSquare(100, 100, 0, 0, 50, 1.0)]. *)
Definition square_100 : SquareArgs :=
  mkSquareArgs (f32_of_Z 100) (f32_of_Z 100) (f32_of_Z 0) (f32_of_Z 0)
               (f32_of_Z 50) (f32_of_Z 1).

(** The spec's scenario: one object of capacity 12 at location 1, created
    in the initial state. *)
Definition example_world : World :=
  result_world (CreateRenderObject 1%positive 12 "atlas" true initial_world).

Definition example_object : RenderObject :=
  {| vao := CreateVAO 12 (f32_of_Z 64, f32_of_Z 64) true;
     texture := (f32_of_Z 64, f32_of_Z 64);
     freeVert := 0; maxVert := 12 |}.

(** ** More of the interface *)

(** The elements at the even positions 0, 2, 4, ... of a sequence. *)
Fixpoint even_positions {A} (l : list A) : list A :=
  match l with
  | [] => []
  | x :: rest =>
      x :: match rest with
           | [] => []
           | _ :: rest' => even_positions rest'
           end
  end.

(** The render object on which a call is made, if it is a method. *)
Definition op_target (op : Op) : option loc :=
  match op with
  | OpAddSquare obj _ => Some obj
  | OpModifyVertSquare obj _ _ _ _ => Some obj
  | OpModifyTexSquare obj _ _ _ _ => Some obj
  | OpModifySquare obj _ _ _ _ _ _ _ => Some obj
  | OpClearSquare obj _ => Some obj
  | OpRotateSquare obj _ _ _ => Some obj
  | OpTranslateSquare obj _ _ => Some obj
  | OpRenderObject obj => Some obj
  | OpRender => None
  | OpSetWindowSize _ _ => None
  end.

(** The calls that take a slot: [AddSquare] alone. *)
Definition allocates (op : Op) : bool :=
  match op with
  | OpAddSquare _ _ => true
  | _ => false
  end.

(** The pointers that a sequence of calls hands to [CreateRenderObject], in
    the order of the calls. *)
Fixpoint created_locs (cs : list Call) : list loc :=
  match cs with
  | [] => []
  | CallCreate obj _ _ _ :: rest => obj :: created_locs rest
  | CallOp _ :: rest => created_locs rest
  end.

(** The calls that one frame adds to the log, given its draw calls. *)
Definition frame_calls (draws : list GLCall) : list GLCall :=
  [GL_ClearColor f32_zero f32_zero f32_zero f32_one; GL_Clear] ++ draws ++ [GL_Poll].

(** * Properties *)

(** ** Integers *)

Lemma int_wrap_id z : is_int z -> int_wrap z = z.
Proof.
  unfold is_int, int_min, int_max, int_wrap, wrap_signed, int_bits. intros Hz.
  change (2 ^ (64 - 1)) with 9223372036854775808.
  change (2 ^ 64) with 18446744073709551616.
  change (2 ^ 63) with 9223372036854775808 in Hz.
  rewrite Z.mod_small; lia.
Qed.

Lemma int_add_no_overflow a b : is_int (a + b) -> int_add a b = a + b.
Proof. apply int_wrap_id. Qed.

Lemma int_sub_add a b : is_int a -> int_sub (int_add a b) b = a.
Proof.
  unfold is_int, int_min, int_max, int_sub, int_add, int_wrap, wrap_signed, int_bits.
  change (2 ^ (64 - 1)) with 9223372036854775808.
  change (2 ^ 64) with 18446744073709551616.
  change (2 ^ 63) with 9223372036854775808. intros Ha.
  replace ((a + b + 9223372036854775808) mod 18446744073709551616 - 9223372036854775808
           - b + 9223372036854775808)
    with ((a + b + 9223372036854775808) mod 18446744073709551616 - b) by lia.
  rewrite Zminus_mod_idemp_l.
  replace (a + b + 9223372036854775808 - b) with (a + 9223372036854775808) by lia.
  rewrite Z.mod_small; lia.
Qed.

Lemma to_int32_id z : 0 <= z <= int32_max -> to_int32 z = z.
Proof.
  unfold int32_max, to_int32, wrap_signed. intros Hz.
  change (2 ^ (32 - 1)) with 2147483648. change (2 ^ 32) with 4294967296.
  change (2 ^ 31) with 2147483648 in Hz.
  rewrite Z.mod_small; lia.
Qed.

(** ** float32 arithmetic on normal numbers *)

Lemma div_eucl_div_mod a b : Z.div_eucl a b = (a / b, a mod b).
Proof. unfold Z.div, Z.modulo. destruct (Z.div_eucl a b); reflexivity. Qed.

Lemma fexp_normal e : -149 <= e -> fexp f32_prec f32_emax (24 + e) = e.
Proof. unfold fexp, emin, f32_prec, f32_emax. lia. Qed.

(** Rounding a 24-bit mantissa at an exponent in range changes nothing. *)
Lemma binary_round_aux_normal s m e :
  digits2_pos m = 24%positive -> -149 <= e <= 104 ->
  binary_round_aux f32_prec f32_emax s (Z.pos m) e loc_Exact = S754_finite s m e.
Proof.
  intros Hd He. unfold binary_round_aux, shr_fexp. cbn [Zdigits2 shr_record_of_loc].
  rewrite Hd, fexp_normal by lia. rewrite Z.sub_diag.
  cbn [shr shr_m loc_of_shr_record round_nearest_even Zdigits2].
  rewrite Hd, fexp_normal by lia. rewrite Z.sub_diag. cbn [shr shr_m].
  unfold f32_emax, f32_prec.
  destruct (Z.leb_spec e (128 - 24)); [reflexivity | lia].
Qed.

(** Rounding a 25-bit even mantissa drops its last bit. *)
Lemma binary_round_aux_even s m e :
  digits2_pos m = 24%positive -> -150 <= e <= 103 ->
  binary_round_aux f32_prec f32_emax s (Z.pos m~0) e loc_Exact = S754_finite s m (e + 1).
Proof.
  intros Hd He. unfold binary_round_aux, shr_fexp.
  cbn [Zdigits2 shr_record_of_loc digits2_pos].
  rewrite Hd. change (Z.pos (Pos.succ 24)) with 25.
  replace (fexp f32_prec f32_emax (25 + e) - e) with 1
    by (unfold fexp, emin, f32_prec, f32_emax; lia).
  cbn [shr SpecFloat.iter_pos shr_1 orb shr_m loc_of_shr_record round_nearest_even Zdigits2].
  rewrite Hd. replace (e + 1) with (1 + e) by lia.
  replace (fexp f32_prec f32_emax (24 + (1 + e)) - (1 + e)) with 0
    by (unfold fexp, emin, f32_prec, f32_emax; lia).
  cbn [shr shr_m]. unfold f32_emax, f32_prec.
  destruct (Z.leb_spec (1 + e) (128 - 24)); [reflexivity | lia].
Qed.

Lemma div_core_two m e :
  digits2_pos m = 24%positive -> -148 <= e ->
  SFdiv_core_binary f32_prec f32_emax (Z.pos m) e 8388608 (-22) =
  if e =? -148 then (Z.pos m, -149, loc_Exact) else (Z.pos m~0, e - 2, loc_Exact).
Proof.
  intros Hd He. unfold SFdiv_core_binary. cbn [Zdigits2]. rewrite Hd.
  change (Z.pos (digits2_pos 8388608)) with 24. cbv zeta.
  set (e' := Z.min _ _).
  destruct (Z.eqb_spec e (-148)) as [-> | Hne].
  - assert (He' : e' = -149) by reflexivity. rewrite He'.
    change (-148 - -22 - -149) with 23.
    rewrite div_eucl_div_mod, Z.shiftl_mul_pow2 by lia.
    change 8388608 with (2 ^ 23). rewrite Z.div_mul, Z.mod_mul by lia. reflexivity.
  - assert (He' : e' = e - 2) by (subst e'; unfold fexp, emin, f32_prec, f32_emax; lia).
    rewrite He'. replace (e - -22 - (e - 2)) with 24 by lia.
    rewrite div_eucl_div_mod, Z.shiftl_mul_pow2 by lia.
    replace (Z.pos m * 2 ^ 24) with (Z.pos m~0 * 8388608) by lia.
    rewrite Z.div_mul, Z.mod_mul by lia. reflexivity.
Qed.

(** Halving a normal number of exponent above the least is exact. *)
Lemma f32_halve m e :
  digits2_pos m = 24%positive -> -148 <= e <= 104 ->
  (S754_finite false m e / f32_two)%f32 = S754_finite false m (e - 1).
Proof.
  intros Hd He. change f32_two with (S754_finite false 8388608 (-22)).
  unfold f32_div, SFdiv. rewrite div_core_two by (assumption || lia). cbn [xorb].
  destruct (Z.eqb_spec e (-148)) as [-> | Hne].
  - apply (binary_round_aux_normal false m (-149)); [assumption | lia].
  - rewrite binary_round_aux_even by (assumption || lia). f_equal. lia.
Qed.

(** [x / x = 1] and [x / -x = -1] for every finite non-zero [x]. *)
Lemma f32_div_self s s' m e :
  (S754_finite s m e / S754_finite s' m e)%f32 = S754_finite (xorb s s') 8388608 (-23).
Proof.
  unfold f32_div, SFdiv, SFdiv_core_binary. cbn [Zdigits2].
  rewrite !Z.sub_diag.
  change (Z.min (fexp f32_prec f32_emax 0) 0) with (-24).
  change (0 - -24) with 24.
  cbv iota beta.
  rewrite div_eucl_div_mod, Z.shiftl_mul_pow2 by lia.
  rewrite (Z.mul_comm (Z.pos m)), Z.div_mul, Z.mod_mul by lia.
  assert (Hl : new_location (Z.pos m) 0 = loc_Exact).
  { unfold new_location, new_location_even, new_location_odd.
    destruct (Z.even _); reflexivity. }
  rewrite Hl. destruct s, s'; reflexivity.
Qed.

Lemma f32_sub_self s m e :
  (S754_finite s m e - S754_finite s m e)%f32 = f32_zero.
Proof.
  unfold f32_sub, SFsub. rewrite Z.min_id. unfold shl_align. rewrite Z.sub_diag.
  cbn [fst]. rewrite ?Z.sub_diag. reflexivity.
Qed.

(** [w - w/2 = w/2] when the half is exact. *)
Lemma f32_sub_half m e :
  digits2_pos m = 24%positive -> -148 <= e <= 104 ->
  (S754_finite false m e - S754_finite false m (e - 1))%f32 = S754_finite false m (e - 1).
Proof.
  intros Hd He. unfold f32_sub, SFsub. cbv zeta.
  replace (Z.min e (e - 1)) with (e - 1) by lia.
  unfold shl_align. rewrite Z.sub_diag. replace (e - 1 - e) with (-1) by lia.
  cbn [fst cond_Zopp Pos.iter].
  replace (Z.pos m~0 - Z.pos m) with (Z.pos m) by lia.
  unfold binary_normalize, binary_round, shl_align.
  rewrite Hd. replace (fexp f32_prec f32_emax (24 + (e - 1)) - (e - 1)) with 0
    by (unfold fexp, emin, f32_prec, f32_emax; lia).
  apply binary_round_aux_normal; [assumption | lia].
Qed.

(** A finite canonical float32 of at least [2^-125] is a positive normal
    number whose exponent is above the least one. *)
Lemma viewport_dim_ok_inv x :
  viewport_dim_ok x = true ->
  exists m e, x = S754_finite false m e /\ digits2_pos m = 24%positive /\ -148 <= e <= 104.
Proof.
  unfold viewport_dim_ok. intros Hx.
  apply andb_prop in Hx as [Hx Hle]. apply andb_prop in Hx as [Hv Hf].
  destruct x as [| | | s m e]; try discriminate Hf.
  cbn [valid_binary] in Hv. unfold bounded, canonical_mantissa in Hv.
  apply andb_prop in Hv as [Hc Hb]. apply Z.eqb_eq in Hc. apply Z.leb_le in Hb.
  assert (Hse : s = false /\ -148 <= e).
  { unfold SFleb, f32_least_halvable, SFcompare in Hle.
    destruct s; [discriminate Hle |]. split; [reflexivity |].
    destruct (Z.compare_spec (-148) e); [lia | lia | discriminate Hle]. }
  destruct Hse as [-> He]. exists m, e. split; [reflexivity |].
  unfold fexp, emin, f32_prec, f32_emax in *. split; lia.
Qed.

(** ** The buffer writes *)

Lemma write_range_lookup vals : forall (buf : gmap Z float32) start k,
  write_range buf start vals !! k =
  if decide (start <= k < start + Z.of_nat (length vals))
  then vals !! Z.to_nat (k - start) else buf !! k.
Proof.
  induction vals as [| v rest IH]; intros buf start k; cbn [write_range length].
  - destruct (decide _); [lia | reflexivity].
  - rewrite IH. destruct (decide (start + 1 <= k < _)) as [Hin | Hout].
    + destruct (decide _) as [_ | Hn]; [| lia].
      replace (Z.to_nat (k - start)) with (S (Z.to_nat (k - (start + 1)))) by lia.
      reflexivity.
    + destruct (decide (start <= k < _)) as [Hin' | Hout'].
      * assert (k = start) as -> by lia. rewrite lookup_insert_eq, Z.sub_diag. reflexivity.
      * rewrite lookup_insert_ne by lia. reflexivity.
Qed.

Lemma write_range_inside vals (buf : gmap Z float32) start (j : nat) :
  (j < length vals)%nat ->
  write_range buf start vals !! (start + Z.of_nat j) = vals !! j.
Proof.
  intros Hj. rewrite write_range_lookup. destruct (decide _) as [_ | Hn]; [| lia].
  f_equal. lia.
Qed.

Lemma write_range_outside vals (buf : gmap Z float32) start k :
  k < start \/ start + Z.of_nat (length vals) <= k ->
  write_range buf start vals !! k = buf !! k.
Proof.
  intros Hk. rewrite write_range_lookup. destruct (decide _); [lia | reflexivity].
Qed.

Section GraphicsFacts.
Context `{Surface}.

(** ** The loop of [PixToScreen] *)

Lemma add_stdout_nil (w : World) : add_stdout [] w = w.
Proof. destruct w. unfold add_stdout. cbn. rewrite app_nil_r. reflexivity. Qed.

Lemma add_stdout_app out1 out2 (w : World) :
  add_stdout out2 (add_stdout out1 w) = add_stdout (out1 ++ out2) w.
Proof. unfold add_stdout. cbn. rewrite app_assoc. reflexivity. Qed.

Lemma length_normed_from hw hh coords : forall even,
  length (normed_from hw hh even coords) = length coords.
Proof. induction coords as [| c rest IH]; intros even; cbn; [| rewrite IH]; reflexivity. Qed.

(** The flag of the loop is true exactly at the even indices. *)
Lemma normed_from_lookup hw hh coords : forall even (i : nat) c,
  coords !! i = Some c ->
  normed_from hw hh even coords !! i =
  Some (if xorb (Nat.even i) even then (c - hw) / hw else (c - hh) / hh)%f32.
Proof.
  induction coords as [| c0 rest IH]; intros even i c Hc; [discriminate Hc |].
  destruct i as [| i].
  - cbn in Hc. injection Hc as ->. cbn. destruct even; reflexivity.
  - cbn [normed_from]. change ((?x :: ?l) !! S i) with (l !! i).
    rewrite (IH _ _ c Hc). rewrite Nat.even_succ, <- Nat.negb_even.
    destruct (Nat.even i), even; reflexivity.
Qed.

Lemma PixToScreen_loop_spec hw hh coords : forall (i : nat) even normed (w : World),
  length normed = (i + length coords)%nat ->
  PixToScreen_loop hw hh i even coords normed w =
  Ok (take i normed ++ normed_from hw hh even coords)
     (add_stdout (printed_from hw even coords) w).
Proof.
  induction coords as [| c rest IH]; intros i even normed w Hlen.
  - cbn in *. rewrite app_nil_r, take_ge by lia. rewrite add_stdout_nil. reflexivity.
  - cbn [PixToScreen_loop normed_from printed_from]. cbn [length] in Hlen.
    assert (Htake : forall v, take (S i) (<[i := v]> normed) = take i normed ++ [v]).
    { intros v. rewrite (take_S_r _ _ v) by (apply list_lookup_insert_eq; lia).
      rewrite take_insert_ge by lia. reflexivity. }
    destruct (negb even).
    + unfold mbind, M_bind, bind, println.
      rewrite IH by (rewrite length_insert; lia).
      rewrite Htake, <- app_assoc. f_equal.
      unfold add_stdout. cbn. rewrite <- app_assoc. reflexivity.
    + rewrite IH by (rewrite length_insert; lia).
      rewrite Htake, <- app_assoc. reflexivity.
Qed.

(** [PixToScreen] always returns, and what it returns and prints. *)
Lemma PixToScreen_eq coords (w : World) :
  PixToScreen coords w =
  Ok (normed_from (halfWidth w) (halfHeight w) false coords)
     (add_stdout (printed_from (halfWidth w) false coords) w).
Proof.
  unfold PixToScreen, mbind, M_bind, bind, gets.
  rewrite PixToScreen_loop_spec by (rewrite length_replicate; lia).
  reflexivity.
Qed.

End GraphicsFacts.

(** ** The coordinate mapper *)

Section CoordinateMapper.
Context `{Surface}.

Lemma halves_of_ok_viewport (w : World) :
  viewport_dim_ok (windowWidth w) = true ->
  exists m e, windowWidth w = S754_finite false m e /\
              halfWidth w = S754_finite false m (e - 1) /\
              digits2_pos m = 24%positive /\ -148 <= e <= 104.
Proof.
  intros Hw. destruct (viewport_dim_ok_inv _ Hw) as (m & e & Hx & Hd & He).
  exists m, e. unfold halfWidth. rewrite Hx, f32_halve by assumption. auto.
Qed.

Lemma halves_of_ok_viewport_h (w : World) :
  viewport_dim_ok (windowHeight w) = true ->
  exists m e, windowHeight w = S754_finite false m e /\
              halfHeight w = S754_finite false m (e - 1) /\
              digits2_pos m = 24%positive /\ -148 <= e <= 104.
Proof.
  intros Hw. destruct (viewport_dim_ok_inv _ Hw) as (m & e & Hx & Hd & He).
  exists m, e. unfold halfHeight. rewrite Hx, f32_halve by assumption. auto.
Qed.

(** C2 (as amended).  [PixToScreen] returns, for every input and every
    viewport, a sequence of the length of its input in which the element at
    an even index is [(x - w/2) / (w/2)] and the element at an odd index is
    [(y - h/2) / (h/2)], in float32 arithmetic and with no change of sign
    for y.  When the width [w] and the height [h] are finite float32 values
    of at least [2^-125], it maps [(w/2, h/2)] to [(0, 0)], [(0, 0)] to
    [(-1, -1)] and [(w, h)] to [(1, 1)]. *)
Theorem PixToScreen_normalizes (w : World) (coords : list float32) :
  exists normed w',
    PixToScreen coords w = Ok normed w' /\
    length normed = length coords /\
    (forall (i : nat) c, coords !! i = Some c ->
       normed !! i =
       Some (if Nat.even i then (c - halfWidth w) / halfWidth w
             else (c - halfHeight w) / halfHeight w)%f32) /\
    (viewport_dim_ok (windowWidth w) = true ->
     viewport_dim_ok (windowHeight w) = true ->
     (exists w1, PixToScreen [halfWidth w; halfHeight w] w
                 = Ok [f32_zero; f32_zero] w1) /\
     (exists w2, PixToScreen [f32_zero; f32_zero] w
                 = Ok [f32_minus_one; f32_minus_one] w2) /\
     (exists w3, PixToScreen [windowWidth w; windowHeight w] w
                 = Ok [f32_one; f32_one] w3)).
Proof.
  eexists _, _. split; [apply PixToScreen_eq |].
  split; [apply length_normed_from |].
  split.
  { intros i c Hc. rewrite (normed_from_lookup _ _ _ _ _ _ Hc).
    rewrite xorb_false_r. reflexivity. }
  intros Hw Hh.
  destruct (halves_of_ok_viewport _ Hw) as (mw & ew & Hww & Hhw & Hdw & Hew).
  destruct (halves_of_ok_viewport_h _ Hh) as (mh & eh & Hwh & Hhh & Hdh & Heh).
  repeat split; eexists; rewrite PixToScreen_eq; cbn [normed_from negb];
    rewrite ?Hww, ?Hwh, Hhw, Hhh; f_equal.
  - rewrite !f32_sub_self. reflexivity.
  - cbn [f32_sub SFsub f32_zero negb]. rewrite !f32_div_self. reflexivity.
  - rewrite !f32_sub_half, !f32_div_self by assumption. reflexivity.
Qed.

(** C9 (as amended).  [SetWindowSize] validates nothing: it accepts every
    width and height, zero included, and never fails.  [PixToScreen] then
    divides by the halves of the stored width and height without a check,
    and never panics.  Those divisors are the non-zero values 400 and 300
    for the initial viewport, and are non-zero whenever the width and the
    height are finite float32 values of at least [2^-125]. *)
Theorem SetWindowSize_unvalidated (w : World) (width height : float32)
    (coords : list float32) :
  exists w',
    SetWindowSize width height w = Ok tt w' /\
    windowWidth w' = width /\ windowHeight w' = height /\
    halfWidth w' = (width / f32_two)%f32 /\
    halfHeight w' = (height / f32_two)%f32 /\
    PixToScreen coords w' =
      Ok (normed_from (halfWidth w') (halfHeight w') false coords)
         (add_stdout (printed_from (halfWidth w') false coords) w') /\
    halfWidth initial_world = f32_of_Z 400 /\
    halfHeight initial_world = f32_of_Z 300 /\
    (viewport_dim_ok width = true -> viewport_dim_ok height = true ->
     f32_is_zero (halfWidth w') = false /\ f32_is_zero (halfHeight w') = false).
Proof.
  eexists. split; [reflexivity |]. cbn [windowWidth windowHeight].
  do 4 (split; [reflexivity |]). split; [apply PixToScreen_eq |].
  do 2 (split; [reflexivity |]).
  intros Hw Hh.
  destruct (viewport_dim_ok_inv _ Hw) as (mw & ew & -> & Hdw & Hew).
  destruct (viewport_dim_ok_inv _ Hh) as (mh & eh & -> & Hdh & Heh).
  unfold halfWidth, halfHeight. cbn [windowWidth windowHeight].
  rewrite !f32_halve by assumption. split; reflexivity.
Qed.

End CoordinateMapper.


(** The halves of the initial 800 x 600 viewport. *)
Lemma initial_halves :
  halfWidth initial_world = f32_of_Z 400 /\ halfHeight initial_world = f32_of_Z 300.
Proof. split; vm_compute; reflexivity. Qed.

(** Witness of C2: the initial 800 x 600 viewport and the first corner of the
    spec's scenario. *)
Lemma PixToScreen_normalizes_witness :
  viewport_dim_ok (windowWidth initial_world) = true /\
  viewport_dim_ok (windowHeight initial_world) = true /\
  exists normed w',
    PixToScreen [f32_of_Z 100; f32_of_Z 100] initial_world = Ok normed w' /\
    normed !! 0%nat = Some (S754_finite true 12582912 (-24)) /\
    normed !! 1%nat = Some (S754_finite true 11184811 (-24)) /\
    (exists w2, PixToScreen [f32_zero; f32_zero] initial_world
                = Ok [f32_minus_one; f32_minus_one] w2).
Proof.
  assert (Hw : viewport_dim_ok (windowWidth initial_world) = true) by reflexivity.
  assert (Hh : viewport_dim_ok (windowHeight initial_world) = true) by reflexivity.
  split; [exact Hw |]. split; [exact Hh |].
  destruct (PixToScreen_normalizes initial_world [f32_of_Z 100; f32_of_Z 100])
    as (normed & w' & Heq & Hlen & Hat & Hcorners).
  destruct initial_halves as [Hhw Hhh].
  exists normed, w'. split; [exact Heq |].
  split; [etransitivity; [exact (Hat 0%nat (f32_of_Z 100) eq_refl) |];
          rewrite Hhw; vm_compute; reflexivity |].
  split; [etransitivity; [exact (Hat 1%nat (f32_of_Z 100) eq_refl) |];
          rewrite Hhh; vm_compute; reflexivity |].
  destruct (Hcorners Hw Hh) as (_ & Hm & _). exact Hm.
Defined.

(** Counterexample to C2 as stated: with the least positive float32 as width
    and height (both greater than 0), half of each rounds to 0, and (0, 0)
    is mapped to (NaN, NaN), not to (-1, -1). *)
Lemma PixToScreen_tiny_viewport :
  exists w,
    SetWindowSize f32_least_positive f32_least_positive initial_world = Ok tt w /\
    f32_pos (windowWidth w) = true /\ f32_pos (windowHeight w) = true /\
    halfWidth w = f32_zero /\ halfHeight w = f32_zero /\
    PixToScreen [f32_zero; f32_zero] w
    = Ok [S754_nan; S754_nan] (add_stdout [S754_nan] w).
Proof.
  eexists. split; [reflexivity |].
  assert (Hhalf : (f32_least_positive / f32_two)%f32 = f32_zero) by (vm_compute; reflexivity).
  split; [reflexivity |]. split; [reflexivity |].
  split; [exact Hhalf |]. split; [exact Hhalf |].
  rewrite PixToScreen_eq. unfold halfWidth, halfHeight. cbn [windowWidth windowHeight].
  rewrite Hhalf. reflexivity.
Qed.

(** Witness of C9: a 1024 x 768 viewport. *)
Lemma SetWindowSize_unvalidated_witness :
  exists w',
    SetWindowSize (f32_of_Z 1024) (f32_of_Z 768) initial_world = Ok tt w' /\
    f32_is_zero (halfWidth w') = false /\ f32_is_zero (halfHeight w') = false.
Proof.
  destruct (SetWindowSize_unvalidated initial_world (f32_of_Z 1024) (f32_of_Z 768) [])
    as (w' & Heq & _ & _ & _ & _ & _ & _ & _ & Hnz).
  exists w'. split; [exact Heq |]. exact (Hnz eq_refl eq_refl).
Defined.

(** Counterexample to C9 as stated: from the initial state, the interface
    accepts a 0 x 0 viewport, after which both divisors of [PixToScreen] are
    zero and the pixel (1, 1) is mapped to (+Inf, +Inf). *)
Lemma SetWindowSize_zero_accepted :
  exists w',
    SetWindowSize f32_zero f32_zero initial_world = Ok tt w' /\
    f32_is_zero (halfWidth w') = true /\ f32_is_zero (halfHeight w') = true /\
    PixToScreen [f32_one; f32_one] w'
    = Ok [S754_infinity false; S754_infinity false] (add_stdout [S754_infinity false] w').
Proof.
  eexists. split; [reflexivity |].
  assert (Hhalf : (f32_zero / f32_two)%f32 = f32_zero) by (vm_compute; reflexivity).
  unfold halfWidth, halfHeight. cbn [windowWidth windowHeight]. rewrite Hhalf.
  split; [reflexivity |]. split; [reflexivity |].
  rewrite PixToScreen_eq. unfold halfWidth, halfHeight. cbn [windowWidth windowHeight].
  rewrite Hhalf. reflexivity.
Qed.

(** ** The methods, call by call *)

Section Methods.
Context `{Surface}.

Ltac unfold_monad := unfold mbind, M_bind, bind, mret, M_ret, ret.

Lemma load_add_stdout out l (w : World) o :
  heap w !! l = Some o -> load l (add_stdout out w) = Ok o (add_stdout out w).
Proof. intros Hl. unfold load. cbn [heap add_stdout]. rewrite Hl. reflexivity. Qed.

Lemma AddSquare_eq (w : World) l x y xTex yTex width widthTex o :
  heap w !! l = Some o ->
  AddSquare l x y xTex yTex width widthTex w =
  let w1 := add_stdout (printed_from (halfWidth w) false (AddSquare_verts x y width)) w in
  if int_add (freeVert o) 6 >? maxVert o then Panic overflow_message w1
  else Ok (int_sub (int_add (freeVert o) 6) 6)
          (set_heap (<[l := allocated o
                             (normed_from (halfWidth w) (halfHeight w) false
                                          (AddSquare_verts x y width))
                             (PixToTex (texture o) (square_texs xTex yTex widthTex))]>
                       (heap w)) w1).
Proof.
  intros Hl. unfold AddSquare. unfold_monad.
  change [x; y; (x + width)%f32; y; (x + width)%f32; (y - width)%f32; x; y;
          (x + width)%f32; (y - width)%f32; x; (y - width)%f32]
    with (AddSquare_verts x y width).
  rewrite PixToScreen_eq, (load_add_stdout _ _ _ _ Hl).
  cbv zeta. destruct (_ >? _); reflexivity.
Qed.

Lemma AddSquare_nil (w : World) l x y xTex yTex width widthTex :
  heap w !! l = None ->
  AddSquare l x y xTex yTex width widthTex w =
  Panic nil_dereference
        (add_stdout (printed_from (halfWidth w) false (AddSquare_verts x y width)) w).
Proof.
  intros Hl. unfold AddSquare. unfold_monad.
  rewrite PixToScreen_eq. unfold load. cbn [heap add_stdout]. rewrite Hl. reflexivity.
Qed.

Lemma ModifyVertSquare_eq (w : World) l index x y width o :
  heap w !! l = Some o ->
  ModifyVertSquare l index x y width w =
  Ok tt (set_heap (<[l := set_vao o (UpdateVertBufferIndex (vao o) index
                             (normed_from (halfWidth w) (halfHeight w) false
                                          (ModifyVertSquare_verts x y width)))]>
                     (heap w))
           (add_stdout (printed_from (halfWidth w) false
                                     (ModifyVertSquare_verts x y width)) w)).
Proof.
  intros Hl. unfold ModifyVertSquare. unfold_monad.
  change [x; y; (x + width)%f32; y; (x + width)%f32; (y + width)%f32; x; y;
          (x + width)%f32; (y + width)%f32; x; (y + width)%f32]
    with (ModifyVertSquare_verts x y width).
  rewrite PixToScreen_eq, (load_add_stdout _ _ _ _ Hl). reflexivity.
Qed.

Lemma ModifyVertSquare_nil (w : World) l index x y width :
  heap w !! l = None ->
  ModifyVertSquare l index x y width w =
  Panic nil_dereference
        (add_stdout (printed_from (halfWidth w) false
                                  (ModifyVertSquare_verts x y width)) w).
Proof.
  intros Hl. unfold ModifyVertSquare. unfold_monad.
  rewrite PixToScreen_eq. unfold load. cbn [heap add_stdout]. rewrite Hl. reflexivity.
Qed.

Lemma ModifyTexSquare_eq (w : World) l index xTex yTex widthTex o :
  heap w !! l = Some o ->
  ModifyTexSquare l index xTex yTex widthTex w =
  Ok tt (set_heap (<[l := set_vao o (UpdateTexBufferIndex (vao o) index
                             (PixToTex (texture o) (square_texs xTex yTex widthTex)))]>
                     (heap w)) w).
Proof.
  intros Hl. unfold ModifyTexSquare. unfold_monad. unfold load. rewrite Hl. reflexivity.
Qed.

Lemma ModifyTexSquare_nil (w : World) l index xTex yTex widthTex :
  heap w !! l = None ->
  ModifyTexSquare l index xTex yTex widthTex w = Panic nil_dereference w.
Proof.
  intros Hl. unfold ModifyTexSquare. unfold_monad. unfold load. rewrite Hl. reflexivity.
Qed.

Lemma RotateSquare_eq (w : World) l x y rad o :
  heap w !! l = Some o ->
  RotateSquare l x y rad w =
  Ok tt (set_heap (<[l := set_vao o (VAO_SetRotation (vao o) x y rad)]> (heap w)) w).
Proof. intros Hl. unfold RotateSquare. unfold_monad. unfold load. rewrite Hl. reflexivity. Qed.

Lemma TranslateSquare_eq (w : World) l x y o :
  heap w !! l = Some o ->
  TranslateSquare l x y w =
  Ok tt (set_heap (<[l := set_vao o (VAO_SetTranslation (vao o) x y)]> (heap w)) w).
Proof. intros Hl. unfold TranslateSquare. unfold_monad. unfold load. rewrite Hl. reflexivity. Qed.

Lemma RenderObject_Render_eq (w : World) l o :
  heap w !! l = Some o ->
  RenderObject_Render l w =
  Ok tt (set_bound_calls None
           (gl_calls w ++ [GL_DrawArrays (Some l) 0 (to_int32 (vao_count (vao o)))]) w).
Proof.
  intros Hl. unfold RenderObject_Render, RenderObject_PrepRender, RenderObject_FinishRender.
  unfold_monad. unfold load, set_bound, gets, gl_call. cbn [heap bound_vao].
  rewrite Hl. cbn [heap]. rewrite Hl. reflexivity.
Qed.

Lemma CreateRenderObject_eq (w : World) l size name sh t :
  LoadTexture name = Some t ->
  CreateRenderObject l size name sh w =
  Ok tt {| windowWidth := windowWidth w; windowHeight := windowHeight w;
           renderObjects := renderObjects w ++ [l];
           heap := <[l := {| vao := CreateVAO (to_uint32 size) t sh; texture := t;
                             freeVert := 0; maxVert := size |}]> (heap w);
           bound_vao := bound_vao w; gl_calls := gl_calls w; stdout := stdout w |}.
Proof. intros Ht. unfold CreateRenderObject. rewrite Ht. reflexivity. Qed.

End Methods.

(** ** Allocation: [AddSquare] *)

Lemma last_slot_count_Z : Z.of_nat last_slot_count = 1537228672809129301.
Proof. unfold last_slot_count. apply Z2Nat.id. lia. Qed.

Lemma int32_slot_count_Z : Z.of_nat int32_slot_count = 357913942.
Proof. unfold int32_slot_count. apply Z2Nat.id. lia. Qed.

Lemma int_max_eq : int_max = 9223372036854775807.
Proof. reflexivity. Qed.

Lemma int_min_eq : int_min = -9223372036854775808.
Proof. reflexivity. Qed.

Lemma int32_max_eq : int32_max = 2147483647.
Proof. reflexivity. Qed.

Section Allocation.
Context `{Surface}.

Lemma length_AddSquare_normed hw hh x y width :
  length (normed_from hw hh false (AddSquare_verts x y width)) = 12%nat.
Proof. rewrite length_normed_from. reflexivity. Qed.

Lemma AddSquare'_eq (w : World) l a o :
  heap w !! l = Some o ->
  AddSquare' l a w =
  let w1 := add_stdout (printed_from (halfWidth w) false
                          (AddSquare_verts (sq_x a) (sq_y a) (sq_width a))) w in
  if int_add (freeVert o) 6 >? maxVert o then Panic overflow_message w1
  else Ok (int_sub (int_add (freeVert o) 6) 6)
          (set_heap (<[l := allocated o
                             (normed_from (halfWidth w) (halfHeight w) false
                                (AddSquare_verts (sq_x a) (sq_y a) (sq_width a)))
                             (PixToTex (texture o)
                                (square_texs (sq_xTex a) (sq_yTex a) (sq_widthTex a)))]>
                       (heap w)) w1).
Proof. intros Hl. unfold AddSquare'. apply AddSquare_eq, Hl. Qed.

(** Successive calls that fit: each returns the next index, and the object
    ends with [freeVert] advanced by six per call. *)
Lemma AddSquares_fit calls : forall (w : World) l o,
  heap w !! l = Some o ->
  0 <= freeVert o ->
  freeVert o + 6 * Z.of_nat (length calls) <= maxVert o ->
  maxVert o <= int_max ->
  exists w' o',
    AddSquares l calls w = Ok (slot_indices (freeVert o) (length calls)) w' /\
    heap w' !! l = Some o' /\
    freeVert o' = freeVert o + 6 * Z.of_nat (length calls) /\
    maxVert o' = maxVert o /\
    renderObjects w' = renderObjects w /\
    gl_calls w' = gl_calls w /\
    (vao_count (vao o) = freeVert o -> vao_count (vao o') = freeVert o').
Proof.
  induction calls as [| a rest IH]; intros w l o Hl H0 Hfit Hmax.
  - exists w, o. cbn [AddSquares length slot_indices]. cbn [length] in Hfit.
    repeat split; [assumption | lia | auto].
  - cbn [length] in Hfit. cbn [AddSquares length slot_indices].
    unfold mbind, M_bind, bind. rewrite (AddSquare'_eq _ _ _ _ Hl). cbv zeta.
    assert (Hadd : int_add (freeVert o) 6 = freeVert o + 6).
    { apply int_add_no_overflow. unfold is_int. rewrite int_min_eq. lia. }
    rewrite Hadd. destruct (Z.gtb_spec (freeVert o + 6) (maxVert o)) as [Hgt | _]; [lia |].
    set (o1 := allocated o _ _). set (w1 := set_heap _ _).
    assert (Hl1 : heap w1 !! l = Some o1) by (subst w1; cbn; apply lookup_insert_eq).
    assert (Hf1 : freeVert o1 = freeVert o + 6) by (subst o1; cbn; exact Hadd).
    destruct (IH w1 l o1 Hl1) as (w' & o' & Heq & Hl' & Hf' & Hm' & Hr' & Hg' & Hc');
      [lia | subst o1; cbn [maxVert allocated set_freeVert set_vao]; lia
       | subst o1; cbn; lia |].
    exists w', o'. rewrite Heq, Hf1. cbn [mret M_ret ret].
    replace (int_sub (freeVert o + 6) 6) with (freeVert o)
      by (rewrite <- Hadd; symmetry; apply int_sub_add; unfold is_int;
          rewrite int_min_eq; lia).
    split; [reflexivity |]. split; [exact Hl' |].
    split; [lia |]. split; [rewrite Hm'; reflexivity |].
    split; [rewrite Hr'; reflexivity |]. split; [rewrite Hg'; reflexivity |].
    intros _. apply Hc'. subst o1.
    cbn [vao_count vao freeVert allocated set_freeVert set_vao UpdateBufferIndex].
    rewrite length_AddSquare_normed. reflexivity.
Qed.

Lemma slot_indices_length start n : length (slot_indices start n) = n.
Proof. revert start. induction n as [| n IH]; intros start; cbn; [| rewrite IH]; reflexivity. Qed.

Lemma slot_indices_lookup n : forall start (k : nat),
  (k < n)%nat -> slot_indices start n !! k = Some (start + 6 * Z.of_nat k).
Proof.
  induction n as [| n IH]; intros start k Hk; [lia |].
  destruct k as [| k]; cbn [slot_indices].
  - cbn. f_equal. lia.
  - change ((?x :: ?l) !! S k) with (l !! k). rewrite IH by lia. f_equal. lia.
Qed.

(** Successive calls that all return, below the wrap-around of [int]. *)
Lemma AddSquares_returned calls : forall (w : World) l o idxs w',
  heap w !! l = Some o ->
  int_min <= freeVert o ->
  freeVert o + 6 * Z.of_nat (length calls) <= int_max ->
  AddSquares l calls w = Ok idxs w' ->
  idxs = slot_indices (freeVert o) (length calls) /\
  exists o', heap w' !! l = Some o' /\
             freeVert o' = freeVert o + 6 * Z.of_nat (length calls) /\
             maxVert o' = maxVert o.
Proof.
  induction calls as [| a rest IH]; intros w l o idxs w' Hl Hmin Hmax Hrun.
  - cbn in Hrun. injection Hrun as <- <-. split; [reflexivity |]. exists o.
    cbn [length]. split; [exact Hl |]. split; [lia | reflexivity].
  - cbn [length] in Hmax. cbn [AddSquares] in Hrun.
    unfold mbind, M_bind, bind in Hrun. rewrite (AddSquare'_eq _ _ _ _ Hl) in Hrun.
    cbv zeta in Hrun.
    assert (Hadd : int_add (freeVert o) 6 = freeVert o + 6).
    { apply int_add_no_overflow. unfold is_int. lia. }
    rewrite Hadd in Hrun.
    destruct (Z.gtb_spec (freeVert o + 6) (maxVert o)) as [Hgt | Hle]; [discriminate Hrun |].
    set (o1 := allocated o _ _) in Hrun. set (w1 := set_heap _ _) in Hrun.
    assert (Hl1 : heap w1 !! l = Some o1) by (subst w1; cbn; apply lookup_insert_eq).
    assert (Hf1 : freeVert o1 = freeVert o + 6) by (subst o1; cbn; exact Hadd).
    destruct (AddSquares l rest w1) as [js w2 | msg w2] eqn:Hrest; [| discriminate Hrun].
    cbn [mret M_ret ret] in Hrun. injection Hrun as <- <-.
    destruct (IH w1 l o1 js w2 Hl1) as (-> & o' & Hl' & Hf' & Hm'); [lia | lia | exact Hrest |].
    replace (int_sub (freeVert o + 6) 6) with (freeVert o)
      by (rewrite <- Hadd; symmetry; apply int_sub_add; unfold is_int; lia).
    rewrite Hf1. split; [reflexivity |]. exists o'.
    split; [exact Hl' |]. split; [cbn [length]; lia |]. rewrite Hm'. reflexivity.
Qed.

End Allocation.

Section AllocationClaims.
Context `{Surface}.

(** A freshly created object filled with as many squares as are given. *)
Lemma created_then_filled (w0 : World) l C name sh t calls :
  LoadTexture name = Some t ->
  6 * Z.of_nat (length calls) <= C -> C <= int_max ->
  exists w1 w2 o,
    CreateRenderObject l C name sh w0 = Ok tt w1 /\
    heap w1 !! l = Some {| vao := CreateVAO (to_uint32 C) t sh; texture := t;
                           freeVert := 0; maxVert := C |} /\
    AddSquares l calls w1 = Ok (slot_indices 0 (length calls)) w2 /\
    heap w2 !! l = Some o /\
    freeVert o = 6 * Z.of_nat (length calls) /\ maxVert o = C /\
    vao_count (vao o) = freeVert o /\
    renderObjects w2 = renderObjects w0 ++ [l] /\ gl_calls w2 = gl_calls w0.
Proof.
  intros Ht Hfit Hmax. rewrite (CreateRenderObject_eq _ _ _ _ _ _ Ht).
  set (o0 := {| vao := _; texture := t; freeVert := 0; maxVert := C |}).
  set (w1 := {| windowWidth := _ |}).
  assert (Hl1 : heap w1 !! l = Some o0) by (subst w1; cbn; apply lookup_insert_eq).
  destruct (AddSquares_fit calls w1 l o0 Hl1) as (w2 & o & Hrun & Hl2 & Hf & Hm & Hr & Hg & Hc);
    [subst o0; cbn; lia .. |].
  exists w1, w2, o. subst o0. cbn [freeVert maxVert] in *.
  rewrite Hrun, Hf, Hm, Hr, Hg.
  repeat split; try assumption; try reflexivity.
  rewrite Hc by reflexivity. exact Hf.
Qed.

(** C1 (as amended).  On a created render object, [AddSquare] panics with
    the overflow message exactly when [freeVert + 6], computed in Go's
    wrapping [int] arithmetic, is greater than [maxVert], and returns
    otherwise; when [freeVert + 6] is within the range of [int], that is the
    comparison of the integers.  On an object of capacity [6 * N] with
    [6 * N + 6 <= 2^63 - 1], [N] successive calls all return (the indices 0,
    6, ...) and the call after them panics. *)
Theorem AddSquare_overflow_iff (w w0 w1 : World) (l l' : loc) (o : RenderObject)
    (a : SquareArgs) (calls : list SquareArgs) (name : string) (sh : bool) :
  (heap w !! l = Some o ->
     (returns (AddSquare' l a w) = false <-> int_add (freeVert o) 6 > maxVert o) /\
     (returns (AddSquare' l a w) = false ->
        exists w', AddSquare' l a w = Panic overflow_message w') /\
     (is_int (freeVert o + 6) ->
        (returns (AddSquare' l a w) = false <-> freeVert o + 6 > maxVert o))) /\
  (6 * Z.of_nat (length calls) + 6 <= int_max ->
   CreateRenderObject l' (6 * Z.of_nat (length calls)) name sh w0 = Ok tt w1 ->
   exists w2,
     AddSquares l' calls w1 = Ok (slot_indices 0 (length calls)) w2 /\
     exists w3, AddSquare' l' a w2 = Panic overflow_message w3).
Proof.
  split.
  - intros Hl. rewrite (AddSquare'_eq _ _ _ _ Hl). cbv zeta.
    assert (Hcode : forall (b : bool) (w2 w3 : World) (i : Z),
              returns (if b then Panic overflow_message w2 else Ok i w3) = false
              <-> b = true).
    { intros [] ? ? ?; cbn; split; congruence. }
    split; [| split].
    + rewrite Hcode. rewrite Z.gtb_gt. lia.
    + intros Hf. apply Hcode in Hf. rewrite Hf. eexists. reflexivity.
    + intros Hint. rewrite Hcode, (int_add_no_overflow _ _ Hint), Z.gtb_gt. lia.
  - intros Hmax Hcreate.
    destruct (LoadTexture name) as [t |] eqn:Ht;
      [| unfold CreateRenderObject in Hcreate; rewrite Ht in Hcreate; discriminate Hcreate].
    destruct (created_then_filled w0 l' (6 * Z.of_nat (length calls)) name sh t calls Ht)
      as (w1' & w2 & o2 & Hc & _ & Hrun & Hl2 & Hf & Hm & _); [lia | lia |].
    rewrite Hc in Hcreate. injection Hcreate as <-.
    exists w2. split; [exact Hrun |].
    rewrite (AddSquare'_eq _ _ _ _ Hl2). cbv zeta.
    rewrite int_add_no_overflow by (unfold is_int; rewrite int_min_eq; lia).
    destruct (Z.gtb_spec (freeVert o2 + 6) (maxVert o2)) as [_ | Hle]; [| lia].
    eexists. reflexivity.
Qed.

(** C3 (as amended).  A call of [AddSquare] that returns, on an object whose
    [freeVert + 6] does not exceed [2^63 - 1], writes the converted positions
    and texture coordinates of its six vertices from vertex [freeVert] on,
    advances [freeVert] by exactly 6 and returns the value [freeVert] had
    before.  On a freshly created object, successive calls that all return
    give the indices 0, 6, 12, ... in order, as long as six times their
    number does not exceed [2^63 - 1]. *)
Theorem AddSquare_advances (w w' w0 w1 w2 : World) (l l' : loc) (o : RenderObject)
    (a : SquareArgs) (i : Z) (C : Z) (name : string) (sh : bool)
    (calls : list SquareArgs) (idxs : list Z) :
  (heap w !! l = Some o -> is_int (freeVert o) -> freeVert o + 6 <= int_max ->
   AddSquare' l a w = Ok i w' ->
   i = freeVert o /\
   exists o',
     heap w' !! l = Some o' /\
     freeVert o' = freeVert o + 6 /\ maxVert o' = maxVert o /\
     (forall j : nat, (j < 12)%nat ->
        vao_verts (vao o') !! (2 * freeVert o + Z.of_nat j) =
        normed_from (halfWidth w) (halfHeight w) false
          (AddSquare_verts (sq_x a) (sq_y a) (sq_width a)) !! j) /\
     (forall j : nat,
        (j < length (PixToTex (texture o)
                       (square_texs (sq_xTex a) (sq_yTex a) (sq_widthTex a))))%nat ->
        vao_texs (vao o') !! (2 * freeVert o + Z.of_nat j) =
        PixToTex (texture o)
          (square_texs (sq_xTex a) (sq_yTex a) (sq_widthTex a)) !! j)) /\
  (CreateRenderObject l' C name sh w0 = Ok tt w1 ->
   6 * Z.of_nat (length calls) <= int_max ->
   AddSquares l' calls w1 = Ok idxs w2 ->
   idxs = slot_indices 0 (length calls) /\
   forall k : nat, (k < length calls)%nat -> idxs !! k = Some (6 * Z.of_nat k)).
Proof.
  split.
  - intros Hl Hint Hmax Hrun. rewrite (AddSquare'_eq _ _ _ _ Hl) in Hrun. cbv zeta in Hrun.
    destruct (_ >? _); [discriminate Hrun |]. injection Hrun as <- <-.
    split; [apply int_sub_add, Hint |].
    eexists. split; [cbn; apply lookup_insert_eq |].
    cbn [freeVert maxVert vao allocated set_freeVert set_vao UpdateBufferIndex
         vao_verts vao_texs].
    split; [apply int_add_no_overflow; unfold is_int in *; lia |].
    split; [reflexivity |].
    split; intros j Hj; apply write_range_inside;
      [rewrite length_AddSquare_normed |]; exact Hj.
  - intros Hcreate Hmax Hrun.
    destruct (LoadTexture name) as [t |] eqn:Ht;
      [| unfold CreateRenderObject in Hcreate; rewrite Ht in Hcreate; discriminate Hcreate].
    rewrite (CreateRenderObject_eq _ _ _ _ _ _ Ht) in Hcreate. injection Hcreate as <-.
    eapply AddSquares_returned in Hrun as (-> & _);
      [| cbn; apply lookup_insert_eq | cbn; rewrite int_min_eq; lia | cbn; lia].
    cbn [freeVert]. split; [reflexivity |].
    intros k Hk. rewrite slot_indices_lookup by exact Hk. f_equal.
Qed.

(** C10.  When [AddSquare] panics, nothing but the lines printed by
    [PixToScreen] distinguishes the state at the panic from the state before
    the call: the store of render objects (every [freeVert], every buffer),
    the registry and the viewport are as they were. *)
Theorem AddSquare_panic_atomic (w w' : World) (l : loc) (a : SquareArgs) (msg : string) :
  AddSquare' l a w = Panic msg w' ->
  same_but_stdout w w' /\
  forall l0, heap w' !! l0 = heap w !! l0.
Proof.
  intros Hrun.
  assert (Hw : w' = add_stdout (printed_from (halfWidth w) false
                                  (AddSquare_verts (sq_x a) (sq_y a) (sq_width a))) w).
  { destruct (heap w !! l) as [o |] eqn:Hl.
    - rewrite (AddSquare'_eq _ _ _ _ Hl) in Hrun. cbv zeta in Hrun.
      destruct (_ >? _); [| discriminate Hrun]. injection Hrun as _ <-. reflexivity.
    - unfold AddSquare' in Hrun. rewrite (AddSquare_nil _ _ _ _ _ _ _ _ Hl) in Hrun.
      injection Hrun as _ <-. reflexivity. }
  subst w'. split; [repeat split |]. intros l0. reflexivity.
Qed.

End AllocationClaims.

(** The world of the scenario, written out. *)
Lemma example_world_created :
  CreateRenderObject 1%positive 12 "atlas" true initial_world = Ok tt example_world.
Proof. reflexivity. Qed.

Lemma example_world_heap : heap example_world !! 1%positive = Some example_object.
Proof.
  unfold example_world.
  rewrite (@CreateRenderObject_eq plain_surface initial_world 1%positive 12 "atlas" true
             (f32_of_Z 64, f32_of_Z 64) eq_refl).
  cbn [result_world heap]. rewrite lookup_insert_eq. reflexivity.
Qed.

Lemma example_world_halves :
  halfWidth example_world = f32_of_Z 400 /\ halfHeight example_world = f32_of_Z 300.
Proof.
  unfold example_world.
  rewrite (@CreateRenderObject_eq plain_surface initial_world 1%positive 12 "atlas" true
             (f32_of_Z 64, f32_of_Z 64) eq_refl).
  exact initial_halves.
Qed.

(** Witness of C1: the spec's scenario, capacity 12 and two squares. *)
Lemma AddSquare_overflow_iff_witness :
  heap example_world !! 1%positive = Some example_object /\
  6 * 2 + 6 <= int_max /\
  (returns (AddSquare' 1%positive square_100 example_world) = false <-> 0 + 6 > 12) /\
  exists w2,
    AddSquares 1%positive [square_100; square_100] example_world = Ok [0; 6] w2 /\
    exists w3, AddSquare' 1%positive square_100 w2 = Panic overflow_message w3.
Proof.
  pose proof example_world_heap as Hl.
  assert (Hmax : 6 * Z.of_nat (length [square_100; square_100]) + 6 <= int_max)
    by (rewrite int_max_eq; cbn; lia).
  destruct (AddSquare_overflow_iff example_world initial_world example_world
              1%positive 1%positive
              example_object square_100 [square_100; square_100] "atlas" true)
    as [HA HB].
  destruct (HA Hl) as (_ & _ & Hiff).
  split; [exact Hl |]. split; [rewrite int_max_eq; lia |].
  split; [apply Hiff; unfold is_int; cbn; rewrite int_min_eq, int_max_eq; lia |].
  exact (HB Hmax example_world_created).
Defined.

(** Counterexample to C1 as stated: an object of capacity [6 * N] for
    [N = 1537228672809129301], so that [6 * N = 2^63 - 2].  The [N] calls
    return; at the next call [freeVert + 6] exceeds [maxVert], yet the sum
    wraps around to a negative [int] and the call returns. *)
Lemma AddSquare_returns_past_capacity :
  exists w1 w2 o,
    CreateRenderObject 1%positive (6 * Z.of_nat last_slot_count) "atlas" true initial_world
      = Ok tt w1 /\
    AddSquares 1%positive (replicate last_slot_count square_100) w1
      = Ok (slot_indices 0 last_slot_count) w2 /\
    heap w2 !! 1%positive = Some o /\
    freeVert o + 6 > maxVert o /\
    returns (AddSquare' 1%positive square_100 w2) = true.
Proof.
  destruct (@created_then_filled plain_surface initial_world 1%positive (6 * Z.of_nat last_slot_count) "atlas" true
              (f32_of_Z 64, f32_of_Z 64) (replicate last_slot_count square_100) eq_refl)
    as (w1 & w2 & o & Hc & _ & Hrun & Hl & Hf & Hm & _).
  - rewrite length_replicate. lia.
  - rewrite last_slot_count_Z, int_max_eq. lia.
  - rewrite length_replicate in Hrun, Hf. rewrite last_slot_count_Z in Hf, Hm.
    exists w1, w2, o. split; [exact Hc |]. split; [exact Hrun |]. split; [exact Hl |].
    split; [lia |]. rewrite (AddSquare'_eq _ _ _ _ Hl). cbv zeta. rewrite Hf, Hm.
    change (int_add (6 * 1537228672809129301) 6 >? 6 * 1537228672809129301) with false.
    reflexivity.
Qed.

(** Witness of C3: the first square of the spec's scenario. *)
Lemma AddSquare_advances_witness :
  heap example_world !! 1%positive = Some example_object /\
  is_int (freeVert example_object) /\ freeVert example_object + 6 <= int_max /\
  exists w',
    AddSquare' 1%positive square_100 example_world = Ok 0 w' /\
    exists o', heap w' !! 1%positive = Some o' /\ freeVert o' = 6 /\
      vao_verts (vao o') !! 0 = Some (S754_finite true 12582912 (-24) : float32) /\
      vao_verts (vao o') !! 1 = Some (S754_finite true 11184811 (-24) : float32).
Proof.
  pose proof example_world_heap as Hl.
  assert (Hint : is_int (freeVert example_object))
    by (unfold is_int; cbn; rewrite int_min_eq, int_max_eq; lia).
  assert (Hmax : freeVert example_object + 6 <= int_max) by (cbn; rewrite int_max_eq; lia).
  assert (Hrun : exists w', AddSquare' 1%positive square_100 example_world = Ok 0 w').
  { rewrite (AddSquare'_eq _ _ _ _ Hl). cbv zeta. eexists. reflexivity. }
  destruct Hrun as [w' Hrun].
  destruct (AddSquare_advances example_world w' initial_world example_world example_world
              1%positive 1%positive example_object square_100 0 12 "atlas" true [] [])
    as [HA _].
  destruct (HA Hl Hint Hmax Hrun) as (_ & o' & Hl' & Hf' & _ & Hv & _).
  destruct example_world_halves as [Hhw Hhh].
  repeat (split; [assumption |]).
  exists w'. split; [exact Hrun |]. exists o'. split; [exact Hl' |].
  split; [exact Hf' |]. split.
  - etransitivity; [exact (Hv 0%nat ltac:(lia)) |]. rewrite Hhw, Hhh.
    vm_compute. reflexivity.
  - etransitivity; [exact (Hv 1%nat ltac:(lia)) |]. rewrite Hhw, Hhh.
    vm_compute. reflexivity.
Defined.

(** Counterexample to C3 as stated: an object of capacity [2^63 - 1] after
    1537228672809129301 squares has [freeVert = 2^63 - 2]; the next call
    returns and leaves [freeVert] at [-2^63 + 4], which is not [freeVert + 6]. *)
Lemma AddSquare_wraps_freeVert :
  exists w1 w2 o i w3 o',
    CreateRenderObject 1%positive int_max "atlas" true initial_world = Ok tt w1 /\
    AddSquares 1%positive (replicate last_slot_count square_100) w1
      = Ok (slot_indices 0 last_slot_count) w2 /\
    heap w2 !! 1%positive = Some o /\
    freeVert o = 9223372036854775806 /\
    AddSquare' 1%positive square_100 w2 = Ok i w3 /\
    heap w3 !! 1%positive = Some o' /\
    freeVert o' = -9223372036854775804 /\
    freeVert o' <> freeVert o + 6.
Proof.
  destruct (@created_then_filled plain_surface initial_world 1%positive int_max "atlas" true
              (f32_of_Z 64, f32_of_Z 64) (replicate last_slot_count square_100) eq_refl)
    as (w1 & w2 & o & Hc & _ & Hrun & Hl & Hf & Hm & _).
  - rewrite length_replicate, last_slot_count_Z, int_max_eq. lia.
  - lia.
  - rewrite length_replicate in Hrun, Hf. rewrite last_slot_count_Z in Hf.
    change (6 * 1537228672809129301) with 9223372036854775806 in Hf.
    exists w1, w2, o. do 2 eexists. eexists.
    split; [exact Hc |]. split; [exact Hrun |]. split; [exact Hl |]. split; [exact Hf |].
    rewrite (AddSquare'_eq _ _ _ _ Hl). cbv zeta. rewrite Hf, Hm.
    change (int_add 9223372036854775806 6 >? int_max) with false. cbv iota.
    split; [reflexivity |]. split; [cbn; apply lookup_insert_eq |].
    cbn [freeVert allocated set_freeVert]. rewrite Hf.
    split; [reflexivity | discriminate].
Qed.

(** Witness of C10: an object of capacity 0, on which [AddSquare] panics. *)
Lemma AddSquare_panic_atomic_witness :
  exists w w',
    CreateRenderObject 1%positive 0 "atlas" true initial_world = Ok tt w /\
    AddSquare' 1%positive square_100 w = Panic overflow_message w' /\
    same_but_stdout w w' /\ heap w' !! 1%positive = heap w !! 1%positive.
Proof.
  destruct (@created_then_filled plain_surface initial_world 1%positive 0 "atlas" true
              (f32_of_Z 64, f32_of_Z 64) [] eq_refl)
    as (w & w2 & o & Hc & Hl & _); [cbn; lia | rewrite int_max_eq; lia |].
  assert (Hrun : exists w', AddSquare' 1%positive square_100 w = Panic overflow_message w').
  { rewrite (AddSquare'_eq _ _ _ _ Hl). cbv zeta. eexists. reflexivity. }
  destruct Hrun as [w' Hrun].
  destruct (AddSquare_panic_atomic w w' 1%positive square_100 overflow_message Hrun)
    as [Hs Hh].
  exists w, w'. split; [exact Hc |]. split; [exact Hrun |]. split; [exact Hs | apply Hh].
Defined.

(** ** What every call preserves *)

Section Preservation.
Context `{Surface}.
Variable R : RenderObject -> RenderObject -> Prop.
Hypothesis R_refl : forall o, R o o.
Hypothesis R_trans : forall o1 o2 o3, R o1 o2 -> R o2 o3 -> R o1 o3.
Hypothesis R_modify : forall o v, vao_count v = vao_count (vao o) -> R o (set_vao o v).
Hypothesis R_alloc : forall o verts texs,
  length verts = 12%nat -> (int_add (freeVert o) 6 >? maxVert o) = false ->
  R o (allocated o verts texs).

Lemma relates_unchanged {A} (m : M A) :
  (forall w a w', m w = Ok a w' -> renderObjects w' = renderObjects w /\ heap w' = heap w) ->
  relates R m.
Proof.
  intros Hm w a w' Hrun. destruct (Hm _ _ _ Hrun) as [Hr Hh]. rewrite Hh.
  split; [exact Hr |]. split; [| auto]. intros l o Hl. exists o. auto.
Qed.

Lemma relates_mbind {A B} (m : M A) (k : A -> M B) :
  relates R m -> (forall a, relates R (k a)) -> relates R (m ≫= k).
Proof.
  intros Hm Hk w b w2 Hrun. unfold mbind, M_bind, bind in Hrun.
  destruct (m w) as [a w1 | msg w1] eqn:Hm1; [| discriminate Hrun].
  destruct (Hm _ _ _ Hm1) as (Hr1 & Hh1 & Hn1).
  destruct (Hk a _ _ _ Hrun) as (Hr2 & Hh2 & Hn2).
  split; [congruence |]. split.
  - intros l o Hl. destruct (Hh1 _ _ Hl) as (o1 & Hl1 & HR1).
    destruct (Hh2 _ _ Hl1) as (o2 & Hl2 & HR2). exists o2. eauto.
  - auto.
Qed.

Lemma relates_insert {A} (m : M A) :
  (forall w a w', m w = Ok a w' ->
     exists target ot o'', heap w !! target = Some ot /\ R ot o'' /\
       renderObjects w' = renderObjects w /\ heap w' = <[target := o'']> (heap w)) ->
  relates R m.
Proof.
  intros Hm w a w' Hrun.
  destruct (Hm _ _ _ Hrun) as (target & ot & o'' & Ht & HR & Hr & Hh). rewrite Hh.
  split; [exact Hr |]. split.
  - intros l o Hl. destruct (decide (l = target)) as [-> | Hne].
    + rewrite lookup_insert_eq. rewrite Ht in Hl. injection Hl as <-. eauto.
    + rewrite lookup_insert_ne by congruence. eauto.
  - intros l Hl. rewrite lookup_insert_ne; [exact Hl |]. congruence.
Qed.

Lemma relates_AddSquare' l a : relates R (AddSquare' l a).
Proof.
  apply relates_insert. intros w i w' Hrun.
  destruct (heap w !! l) as [o |] eqn:Hl.
  - rewrite (AddSquare'_eq _ _ _ _ Hl) in Hrun. cbv zeta in Hrun.
    destruct (_ >? _) eqn:Hchk; [discriminate Hrun |]. injection Hrun as _ <-.
    eexists l, o, _. split; [exact Hl |]. split; [| split; reflexivity].
    apply R_alloc; [apply length_AddSquare_normed | exact Hchk].
  - unfold AddSquare' in Hrun. rewrite AddSquare_nil in Hrun by exact Hl. discriminate Hrun.
Qed.

Lemma relates_ModifyVertSquare l i x y width : relates R (ModifyVertSquare l i x y width).
Proof.
  apply relates_insert. intros w u w' Hrun.
  destruct (heap w !! l) as [o |] eqn:Hl.
  - rewrite (ModifyVertSquare_eq _ _ _ _ _ _ _ Hl) in Hrun. injection Hrun as _ <-.
    eexists l, o, _. split; [exact Hl |]. split; [| split; reflexivity].
    apply R_modify. reflexivity.
  - rewrite ModifyVertSquare_nil in Hrun by exact Hl. discriminate Hrun.
Qed.

Lemma relates_ModifyTexSquare l i x y width : relates R (ModifyTexSquare l i x y width).
Proof.
  apply relates_insert. intros w u w' Hrun.
  destruct (heap w !! l) as [o |] eqn:Hl.
  - rewrite (ModifyTexSquare_eq _ _ _ _ _ _ _ Hl) in Hrun. injection Hrun as _ <-.
    eexists l, o, _. split; [exact Hl |]. split; [| split; reflexivity].
    apply R_modify. reflexivity.
  - rewrite ModifyTexSquare_nil in Hrun by exact Hl. discriminate Hrun.
Qed.

Lemma relates_RotateSquare l x y rad : relates R (RotateSquare l x y rad).
Proof.
  apply relates_insert. intros w u w' Hrun.
  destruct (heap w !! l) as [o |] eqn:Hl.
  - rewrite (RotateSquare_eq _ _ _ _ _ _ Hl) in Hrun. injection Hrun as _ <-.
    eexists l, o, _. split; [exact Hl |]. split; [| split; reflexivity].
    apply R_modify. reflexivity.
  - unfold RotateSquare, mbind, M_bind, bind, load in Hrun. rewrite Hl in Hrun.
    discriminate Hrun.
Qed.

Lemma relates_TranslateSquare l x y : relates R (TranslateSquare l x y).
Proof.
  apply relates_insert. intros w u w' Hrun.
  destruct (heap w !! l) as [o |] eqn:Hl.
  - rewrite (TranslateSquare_eq _ _ _ _ _ Hl) in Hrun. injection Hrun as _ <-.
    eexists l, o, _. split; [exact Hl |]. split; [| split; reflexivity].
    apply R_modify. reflexivity.
  - unfold TranslateSquare, mbind, M_bind, bind, load in Hrun. rewrite Hl in Hrun.
    discriminate Hrun.
Qed.

Lemma relates_RenderObject_Render l : relates R (RenderObject_Render l).
Proof.
  apply relates_unchanged. intros w u w' Hrun.
  destruct (heap w !! l) as [o |] eqn:Hl.
  - rewrite (RenderObject_Render_eq _ _ _ Hl) in Hrun. injection Hrun as _ <-.
    split; reflexivity.
  - unfold RenderObject_Render, RenderObject_PrepRender, mbind, M_bind, bind, load in Hrun.
    rewrite Hl in Hrun. discriminate Hrun.
Qed.

Lemma relates_Render_loop objs : relates R (Render_loop objs).
Proof.
  induction objs as [| l rest IH]; cbn [Render_loop].
  - apply relates_unchanged. intros w u w' Hrun. injection Hrun as _ <-. split; reflexivity.
  - apply relates_mbind; [apply relates_RenderObject_Render | intros _; exact IH].
Qed.

Lemma relates_gl_call c : relates R (gl_call c).
Proof.
  apply relates_unchanged. intros w u w' Hrun. injection Hrun as _ <-. split; reflexivity.
Qed.

Lemma relates_Render : relates R Render.
Proof.
  unfold Render.
  apply relates_mbind; [apply relates_gl_call | intros _].
  apply relates_mbind; [apply relates_gl_call | intros _].
  apply relates_mbind.
  - apply relates_unchanged. intros w objs w' Hrun. injection Hrun as _ <-. split; reflexivity.
  - intros objs. apply relates_mbind; [apply relates_Render_loop | intros _].
    apply relates_gl_call.
Qed.

Lemma relates_run_op op : relates R (run_op op).
Proof.
  destruct op; cbn [run_op].
  - apply relates_mbind; [apply relates_AddSquare' | intros _].
    apply relates_unchanged. intros w u w' Hrun. injection Hrun as _ <-. split; reflexivity.
  - apply relates_ModifyVertSquare.
  - apply relates_ModifyTexSquare.
  - unfold ModifySquare.
    apply relates_mbind; [apply relates_ModifyVertSquare | intros _].
    apply relates_ModifyTexSquare.
  - apply relates_ModifyVertSquare.
  - apply relates_RotateSquare.
  - apply relates_TranslateSquare.
  - apply relates_RenderObject_Render.
  - apply relates_Render.
  - apply relates_unchanged. intros w u w' Hrun. injection Hrun as _ <-. split; reflexivity.
Qed.

Lemma relates_run_ops ops : relates R (run_ops ops).
Proof.
  induction ops as [| op rest IH]; cbn [run_ops].
  - apply relates_unchanged. intros w u w' Hrun. injection Hrun as _ <-. split; reflexivity.
  - apply relates_mbind; [apply relates_run_op | intros _; exact IH].
Qed.

End Preservation.

(** ** Sequences of calls *)

Section Sequences.
Context `{Surface}.

Lemma run_ops_app ops1 : forall ops2 (w w3 : World),
  run_ops (ops1 ++ ops2) w = Ok tt w3 ->
  exists w2, run_ops ops1 w = Ok tt w2 /\ run_ops ops2 w2 = Ok tt w3.
Proof.
  induction ops1 as [| op rest IH]; intros ops2 w w3 Hrun.
  - exists w. split; [reflexivity | exact Hrun].
  - cbn [app run_ops] in *. unfold mbind, M_bind, bind in *.
    destruct (run_op op w) as [[] w1 | msg w1]; [| discriminate Hrun].
    apply IH, Hrun.
Qed.

Lemma run_ops_AddSquares calls : forall l (w w' : World) idxs,
  AddSquares l calls w = Ok idxs w' ->
  run_ops (OpAddSquare l <$> calls) w = Ok tt w'.
Proof.
  induction calls as [| a rest IH]; intros l w w' idxs Hrun.
  - cbn in *. injection Hrun as _ <-. reflexivity.
  - cbn [AddSquares fmap list_fmap run_ops run_op] in *.
    unfold mbind, M_bind, bind in *.
    destruct (AddSquare' l a w) as [i w1 | msg w1]; [| discriminate Hrun].
    cbn [mret M_ret ret].
    destruct (AddSquares l rest w1) as [js w2 | msg w2] eqn:Hrest; [| discriminate Hrun].
    injection Hrun as _ <-. exact (IH _ _ _ _ Hrest).
Qed.

Lemma run_calls_ops ops : forall (w : World),
  run_calls (CallOp <$> ops) w = run_ops ops w.
Proof.
  induction ops as [| op rest IH]; intros w; [reflexivity |].
  cbn [fmap list_fmap run_calls run_ops run_call]. unfold mbind, M_bind, bind.
  destruct (run_op op w); [apply IH | reflexivity].
Qed.

(** The slot invariant of creation is kept by every call that returns. *)
Lemma slot_inv_kept C ops (w w' : World) l o :
  C <= int_max - 2 ->
  run_ops ops w = Ok tt w' -> heap w !! l = Some o -> slot_inv C o ->
  exists o', heap w' !! l = Some o' /\ slot_inv C o' /\ freeVert o <= freeVert o'.
Proof.
  intros HC Hrun Hl Hinv.
  pose (R := fun o1 o2 : RenderObject =>
               slot_inv C o1 -> slot_inv C o2 /\ freeVert o1 <= freeVert o2).
  assert (Hrel : relates R (run_ops ops)).
  { apply relates_run_ops; subst R; cbv beta.
    - intros o1 H1. split; [exact H1 | lia].
    - intros o1 o2 o3 H12 H23 H1. destruct (H12 H1) as [H2 Hle].
      destruct (H23 H2) as [H3 Hle']. split; [exact H3 | lia].
    - intros o1 v _ H1. split; [exact H1 | cbn; lia].
    - intros o1 verts texs _ Hchk (Hb & Hm & Hmod).
      cbn [freeVert maxVert allocated set_freeVert set_vao].
      rewrite int_max_eq in HC.
      assert (Hno : freeVert o1 + 6 <= 9223372036854775807)
        by (pose proof (Z.mod_pos_bound (freeVert o1) 6 ltac:(lia));
            pose proof (Z.div_mod (freeVert o1) 6 ltac:(lia)); lia).
      assert (Hadd : int_add (freeVert o1) 6 = freeVert o1 + 6)
        by (apply int_add_no_overflow; unfold is_int; rewrite int_min_eq, int_max_eq; lia).
      rewrite Hadd in *. rewrite Z.gtb_ltb in Hchk. apply Z.ltb_ge in Hchk.
      unfold slot_inv. cbn [freeVert maxVert allocated set_freeVert set_vao].
      rewrite Hadd. split; [| lia]. split; [lia |]. split; [exact Hm |].
      rewrite <- Zplus_mod_idemp_l, Hmod. reflexivity. }
  destruct (Hrel _ _ _ Hrun) as (_ & Hh & _).
  destruct (Hh _ _ Hl) as (o' & Hl' & HR). exists o'. split; [exact Hl' |].
  apply HR, Hinv.
Qed.

(** C4 (as amended).  For an object created with a capacity [C] such that
    [0 <= C < 2^63 - 2], and a sequence of calls ([AddSquare], the
    [Modify*Square], [ClearSquare], [RotateSquare], [TranslateSquare], the
    two [Render], [SetWindowSize], on this or any other object) that
    returns: after every prefix of the sequence
    [0 <= freeVert <= maxVert] and [maxVert = C]; [freeVert] is 0 after
    creation and is at no point smaller than at an earlier one. *)
Theorem capacity_invariant (w0 w1 w3 : World) (l : loc) (C : Z) (name : string)
    (sh : bool) (ops1 ops2 : list Op) :
  0 <= C -> C <= int_max - 2 ->
  CreateRenderObject l C name sh w0 = Ok tt w1 ->
  run_ops (ops1 ++ ops2) w1 = Ok tt w3 ->
  exists w2 o1 o2 o3,
    heap w1 !! l = Some o1 /\ freeVert o1 = 0 /\ maxVert o1 = C /\
    run_ops ops1 w1 = Ok tt w2 /\ run_ops ops2 w2 = Ok tt w3 /\
    heap w2 !! l = Some o2 /\ heap w3 !! l = Some o3 /\
    0 <= freeVert o2 <= maxVert o2 /\ maxVert o2 = C /\
    0 <= freeVert o3 <= maxVert o3 /\ maxVert o3 = C /\
    freeVert o2 <= freeVert o3.
Proof.
  intros HC0 HC Hcreate Hrun.
  destruct (LoadTexture name) as [t |] eqn:Ht;
    [| unfold CreateRenderObject in Hcreate; rewrite Ht in Hcreate; discriminate Hcreate].
  rewrite (CreateRenderObject_eq _ _ _ _ _ _ Ht) in Hcreate. injection Hcreate as <-.
  set (o1 := {| vao := _; texture := t; freeVert := 0; maxVert := C |}) in *.
  set (w1 := {| windowWidth := _ |}) in *.
  assert (Hl1 : heap w1 !! l = Some o1) by (subst w1; cbn; apply lookup_insert_eq).
  assert (Hinv1 : slot_inv C o1)
    by (subst o1; unfold slot_inv; cbn [freeVert maxVert]; split; [lia | split; reflexivity]).
  destruct (run_ops_app _ _ _ _ Hrun) as (w2 & Hrun1 & Hrun2).
  destruct (slot_inv_kept C ops1 w1 w2 l o1 HC Hrun1 Hl1 Hinv1) as (o2 & Hl2 & Hinv2 & _).
  destruct (slot_inv_kept C ops2 w2 w3 l o2 HC Hrun2 Hl2 Hinv2) as (o3 & Hl3 & Hinv3 & Hle).
  exists w2, o1, o2, o3.
  destruct Hinv2 as (Hb2 & Hm2 & _). destruct Hinv3 as (Hb3 & Hm3 & _).
  repeat split; try assumption; try reflexivity; lia.
Qed.

End Sequences.

(** Witness of C4: capacity 12 and two squares, one after the other. *)
Lemma capacity_invariant_witness :
  0 <= 12 /\ 12 <= int_max - 2 /\
  exists w1 w3 o2 o3,
    CreateRenderObject 1%positive 12 "atlas" true initial_world = Ok tt w1 /\
    run_ops ([OpAddSquare 1%positive square_100] ++ [OpAddSquare 1%positive square_100]) w1
      = Ok tt w3 /\
    heap w3 !! 1%positive = Some o3 /\
    0 <= freeVert o2 <= maxVert o2 /\ maxVert o2 = 12 /\
    0 <= freeVert o3 <= maxVert o3 /\ maxVert o3 = 12 /\
    freeVert o2 <= freeVert o3.
Proof.
  assert (H0 : 0 <= 12) by lia.
  assert (HC : 12 <= int_max - 2) by (rewrite int_max_eq; lia).
  split; [exact H0 |]. split; [exact HC |].
  destruct (@created_then_filled plain_surface initial_world 1%positive 12 "atlas" true
              (f32_of_Z 64, f32_of_Z 64) [square_100; square_100] eq_refl)
    as (w1 & w3 & o & Hc & _ & Hadd & _); [cbn; lia | rewrite int_max_eq; lia |].
  pose proof (run_ops_AddSquares _ _ _ _ _ Hadd) as Hrun.
  change (OpAddSquare 1%positive <$> [square_100; square_100])
    with ([OpAddSquare 1%positive square_100] ++ [OpAddSquare 1%positive square_100])
    in Hrun.
  destruct (capacity_invariant initial_world w1 w3 1%positive 12 "atlas" true
              _ _ H0 HC Hc Hrun)
    as (w2 & o1 & o2 & o3 & _ & _ & _ & _ & _ & _ & Hl3 & Hb2 & Hm2 & Hb3 & Hm3 & Hle).
  exists w1, w3, o2, o3. auto 10.
Defined.

(** Counterexample to C4 as stated.  An object created with capacity -1
    has [freeVert = 0 > maxVert] from the start.  An object of capacity
    [2^63 - 1] on which 1537228672809129302 calls of [AddSquare] return ends
    with a negative [freeVert], smaller than it was one call earlier. *)
Lemma capacity_invariant_fails :
  (exists w1 o,
     CreateRenderObject 1%positive (-1) "atlas" true initial_world = Ok tt w1 /\
     heap w1 !! 1%positive = Some o /\ ~ (0 <= freeVert o <= maxVert o)) /\
  (exists w1 w2 w3 o2 o3,
     CreateRenderObject 1%positive int_max "atlas" true initial_world = Ok tt w1 /\
     run_ops (OpAddSquare 1%positive <$> replicate last_slot_count square_100) w1
       = Ok tt w2 /\
     run_ops [OpAddSquare 1%positive square_100] w2 = Ok tt w3 /\
     heap w2 !! 1%positive = Some o2 /\ heap w3 !! 1%positive = Some o3 /\
     freeVert o3 < 0 /\ freeVert o3 < freeVert o2).
Proof.
  split.
  - rewrite (@CreateRenderObject_eq plain_surface initial_world 1%positive (-1) "atlas" true
               (f32_of_Z 64, f32_of_Z 64) eq_refl).
    eexists _, _. split; [reflexivity |].
    split; [cbn [heap]; apply lookup_insert_eq |]. cbn [freeVert maxVert]. lia.
  - destruct (@created_then_filled plain_surface initial_world 1%positive int_max "atlas" true
                (f32_of_Z 64, f32_of_Z 64) (replicate last_slot_count square_100) eq_refl)
      as (w1 & w2 & o & Hc & _ & Hrun & Hl & Hf & Hm & _).
    + rewrite length_replicate, last_slot_count_Z, int_max_eq. lia.
    + lia.
    + rewrite length_replicate in Hf. rewrite last_slot_count_Z in Hf.
      change (6 * 1537228672809129301) with 9223372036854775806 in Hf.
      exists w1, w2. eexists. exists o. eexists.
      split; [exact Hc |]. split; [exact (run_ops_AddSquares _ _ _ _ _ Hrun) |].
      cbn [run_ops run_op]. unfold mbind, M_bind, bind.
      rewrite (AddSquare'_eq _ _ _ _ Hl). cbv zeta. rewrite Hf, Hm.
      change (int_add 9223372036854775806 6 >? int_max) with false. cbv iota.
      cbn [mret M_ret ret].
      split; [reflexivity |]. split; [exact Hl |].
      split; [cbn; apply lookup_insert_eq |].
      cbn [freeVert allocated set_freeVert]. rewrite Hf.
      change (int_add 9223372036854775806 6) with (-9223372036854775804). lia.
Qed.

(** ** The frame loop *)

Section Frame.
Context `{Surface}.

Lemma registry_inv_initial : registry_inv initial_world.
Proof.
  split.
  - intros l o Hl. cbn in Hl. rewrite lookup_empty in Hl. discriminate Hl.
  - intros l Hl. cbn in Hl. apply elem_of_nil in Hl. destruct Hl.
Qed.

Lemma registry_inv_run_op op (w w' : World) :
  run_op op w = Ok tt w' -> registry_inv w -> registry_inv w'.
Proof.
  intros Hrun [Hcount Hreg].
  pose (R := fun o1 o2 : RenderObject => count_inv o1 -> count_inv o2).
  assert (Hrel : relates R (run_op op)).
  { apply relates_run_op; subst R; cbv beta.
    - auto.
    - auto.
    - intros o v Hv Ho. unfold count_inv in *. cbn. congruence.
    - intros o verts texs Hlen _ _. unfold count_inv.
      cbn [vao_count vao freeVert allocated set_freeVert set_vao UpdateBufferIndex].
      rewrite Hlen. reflexivity. }
  destruct (Hrel _ _ _ Hrun) as (Hr & Hh & Hn). split.
  - intros l o' Hl'. destruct (heap w !! l) as [o |] eqn:Hl.
    + destruct (Hh _ _ Hl) as (o'' & Hl'' & HR). rewrite Hl' in Hl''.
      injection Hl'' as <-. apply HR, (Hcount _ _ Hl).
    + rewrite (Hn _ Hl) in Hl'. discriminate Hl'.
  - intros l Hl. rewrite Hr in Hl. destruct (Hreg _ Hl) as [o Ho].
    destruct (Hh _ _ Ho) as (o' & Hl' & _). eauto.
Qed.

Lemma registry_inv_run_call c (w w' : World) :
  run_call c w = Ok tt w' -> registry_inv w -> registry_inv w'.
Proof.
  destruct c as [l size name sh | op]; [| apply registry_inv_run_op].
  cbn [run_call]. intros Hrun [Hcount Hreg].
  destruct (LoadTexture name) as [t |] eqn:Ht;
    [| unfold CreateRenderObject in Hrun; rewrite Ht in Hrun; discriminate Hrun].
  rewrite (CreateRenderObject_eq _ _ _ _ _ _ Ht) in Hrun. injection Hrun as <-.
  split; cbn [heap renderObjects].
  - intros l0 o Hl0. destruct (decide (l0 = l)) as [-> | Hne].
    + rewrite lookup_insert_eq in Hl0. injection Hl0 as <-. reflexivity.
    + rewrite lookup_insert_ne in Hl0 by congruence. eauto.
  - intros l0 Hl0. apply elem_of_app in Hl0 as [Hl0 | Hl0].
    + destruct (decide (l0 = l)) as [-> | Hne].
      * rewrite lookup_insert_eq. eauto.
      * rewrite lookup_insert_ne by congruence. auto.
    + apply list_elem_of_singleton in Hl0 as ->. rewrite lookup_insert_eq. eauto.
Qed.

(** Every state reached from the initial one satisfies the invariant. *)
Lemma registry_inv_reachable cs : forall (w w' : World),
  run_calls cs w = Ok tt w' -> registry_inv w -> registry_inv w'.
Proof.
  induction cs as [| c rest IH]; intros w w' Hrun Hinv.
  - cbn in Hrun. injection Hrun as <-. exact Hinv.
  - cbn [run_calls] in Hrun. unfold mbind, M_bind, bind in Hrun.
    destruct (run_call c w) as [[] w1 | msg w1] eqn:Hc; [| discriminate Hrun].
    eapply IH; [exact Hrun |]. eapply registry_inv_run_call; eassumption.
Qed.

Lemma Render_loop_spec objs : forall (w : World),
  (forall l, l ∈ objs -> is_Some (heap w !! l)) ->
  exists w' draws,
    Render_loop objs w = Ok tt w' /\
    heap w' = heap w /\ renderObjects w' = renderObjects w /\
    windowWidth w' = windowWidth w /\ windowHeight w' = windowHeight w /\
    stdout w' = stdout w /\
    gl_calls w' = gl_calls w ++ draws /\
    Forall2 (fun l c => exists o, heap w !! l = Some o /\
               c = GL_DrawArrays (Some l) 0 (to_int32 (vao_count (vao o)))) objs draws.
Proof.
  induction objs as [| l rest IH]; intros w Hin.
  - exists w, []. cbn [Render_loop]. rewrite app_nil_r. repeat split. constructor.
  - destruct (Hin l) as [o Hl]; [apply list_elem_of_here |].
    cbn [Render_loop]. unfold mbind, M_bind, bind.
    rewrite (RenderObject_Render_eq _ _ _ Hl).
    set (w1 := set_bound_calls _ _ w).
    destruct (IH w1) as (w' & draws & Hrun & Hh & Hr & Hww & Hwh & Hout & Hg & Hall).
    { intros l0 Hl0. subst w1. cbn [heap set_bound_calls]. apply Hin.
      apply list_elem_of_further, Hl0. }
    exists w', (GL_DrawArrays (Some l) 0 (to_int32 (vao_count (vao o))) :: draws).
    split; [exact Hrun |]. subst w1. cbn [heap renderObjects gl_calls set_bound_calls
      windowWidth windowHeight stdout] in *.
    rewrite Hg, <- app_assoc.
    repeat split; try assumption. constructor; [eauto | exact Hall].
Qed.

Lemma bind_Ok {A B} (m : M A) (k : A -> M B) (w w1 : World) a :
  m w = Ok a w1 -> (m ≫= k) w = k a w1.
Proof. intros Hm. unfold mbind, M_bind, bind. rewrite Hm. reflexivity. Qed.

(** One frame, in a state that satisfies the invariant. *)
Lemma Render_spec (w : World) :
  registry_inv w ->
  exists w' draws,
    Render w = Ok tt w' /\
    gl_calls w' = gl_calls w
                  ++ [GL_ClearColor f32_zero f32_zero f32_zero f32_one; GL_Clear]
                  ++ draws ++ [GL_Poll] /\
    Forall2 (draw_of w) (renderObjects w) draws /\
    heap w' = heap w /\ renderObjects w' = renderObjects w.
Proof.
  intros [Hcount Hreg]. unfold Render.
  erewrite bind_Ok by reflexivity.
  erewrite bind_Ok by reflexivity.
  erewrite bind_Ok by reflexivity.
  cbn [renderObjects].
  match goal with
  | |- context [(Render_loop _ ≫= _) ?w1] =>
      destruct (Render_loop_spec (renderObjects w) w1)
        as (w2 & draws & Hrun & Hh & Hr & _ & _ & _ & Hg & Hall)
  end.
  { intros l Hl. cbn [heap]. apply Hreg, Hl. }
  erewrite bind_Ok by exact Hrun.
  eexists _, draws. split; [reflexivity |].
  cbn [gl_calls heap renderObjects] in *. rewrite Hg, Hh, Hr.
  split; [rewrite <- !app_assoc; reflexivity |].
  split; [| split; reflexivity].
  eapply Forall2_impl; [exact Hall |]. cbv beta.
  intros l c (o & Hl & ->). exists o. split; [exact Hl |].
  rewrite (Hcount _ _ Hl). reflexivity.
Qed.

(** Creation followed by squares that fit, as a sequence of calls. *)
Lemma created_then_filled_calls (w0 : World) l C name sh t calls :
  LoadTexture name = Some t ->
  6 * Z.of_nat (length calls) <= C -> C <= int_max ->
  exists w2 o,
    run_calls (CallCreate l C name sh :: (CallOp <$> (OpAddSquare l <$> calls))) w0
      = Ok tt w2 /\
    heap w2 !! l = Some o /\
    freeVert o = 6 * Z.of_nat (length calls) /\
    renderObjects w2 = renderObjects w0 ++ [l] /\ gl_calls w2 = gl_calls w0.
Proof.
  intros Ht Hfit Hmax.
  destruct (created_then_filled w0 l C name sh t calls Ht Hfit Hmax)
    as (w1 & w2 & o & Hc & _ & Hrun & Hl & Hf & _ & _ & Hr & Hg).
  exists w2, o. split; [| auto].
  cbn [run_calls run_call]. unfold mbind, M_bind, bind. rewrite Hc.
  rewrite run_calls_ops. exact (run_ops_AddSquares _ _ _ _ _ Hrun).
Qed.

(** C6 (as amended).  In every state reached from the initial one by calls
    of the interface, [Render] clears the frame, then issues exactly one
    [DrawArrays] call per entry of the registry, in registration order and
    with that object's VAO bound, starting at vertex 0 and with the object's
    [freeVert] converted to [int32] as count, and then polls.  When every
    registered object has [0 <= freeVert <= 2^31 - 1], the count is
    [freeVert] itself, so that each draw covers exactly [[0, freeVert)]. *)
Theorem Render_draws_registered (cs : list Call) (w : World) :
  run_calls cs initial_world = Ok tt w ->
  exists w' draws,
    Render w = Ok tt w' /\
    gl_calls w' = gl_calls w
                  ++ [GL_ClearColor f32_zero f32_zero f32_zero f32_one; GL_Clear]
                  ++ draws ++ [GL_Poll] /\
    length draws = length (renderObjects w) /\
    Forall2 (draw_of w) (renderObjects w) draws /\
    ((forall l o, l ∈ renderObjects w -> heap w !! l = Some o ->
        0 <= freeVert o <= int32_max) ->
     Forall2 (draws_range w) (renderObjects w) draws).
Proof.
  intros Hreach.
  pose proof (registry_inv_reachable _ _ _ Hreach registry_inv_initial) as Hinv.
  destruct (Render_spec w Hinv) as (w' & draws & Hrun & Hg & Hall & _ & _).
  exists w', draws. split; [exact Hrun |]. split; [exact Hg |].
  split; [symmetry; eapply Forall2_length, Hall |]. split; [exact Hall |].
  intros Hsmall. apply Forall2_same_length_lookup. split; [eapply Forall2_length, Hall |].
  intros k l c Hk Hc.
  destruct (Forall2_lookup_lr _ _ _ _ _ _ Hall Hk Hc) as (o & Hl & ->).
  exists o. split; [exact Hl |]. rewrite to_int32_id; [reflexivity |].
  eapply Hsmall; [| exact Hl]. eapply list_elem_of_lookup_2, Hk.
Qed.

End Frame.

(** Witness of C6: one object of capacity 12 with one square. *)
Lemma Render_draws_registered_witness :
  exists w w',
    run_calls (CallCreate 1%positive 12 "atlas" true
               :: (CallOp <$> (OpAddSquare 1%positive <$> [square_100])))
              initial_world = Ok tt w /\
    Render w = Ok tt w' /\
    gl_calls w' = [GL_ClearColor f32_zero f32_zero f32_zero f32_one; GL_Clear;
                   GL_DrawArrays (Some 1%positive) 0 6; GL_Poll].
Proof.
  destruct (@created_then_filled_calls plain_surface initial_world 1%positive 12 "atlas"
              true (f32_of_Z 64, f32_of_Z 64) [square_100] eq_refl)
    as (w & o & Hcalls & Hl & Hf & Hr & Hg); [cbn; lia | rewrite int_max_eq; lia |].
  change (renderObjects initial_world ++ [1%positive]) with [1%positive] in Hr.
  change (6 * Z.of_nat (length [square_100])) with 6 in Hf.
  destruct (Render_draws_registered _ w Hcalls) as (w' & draws & HR & Hgl & _ & _ & Hrange).
  exists w, w'. split; [exact Hcalls |]. split; [exact HR |].
  rewrite Hgl, Hg, Hr in *.
  assert (Hall : Forall2 (draws_range w) [1%positive] draws).
  { apply Hrange. intros l o' Hin Hl'. apply list_elem_of_singleton in Hin as ->.
    rewrite Hl in Hl'. injection Hl' as <-. rewrite Hf, int32_max_eq. lia. }
  apply Forall2_cons_inv_l in Hall as (c & rest & (o' & Hl' & ->) & Hrest & ->).
  apply Forall2_nil_inv_l in Hrest as ->.
  rewrite Hl in Hl'. injection Hl' as <-. rewrite Hf. reflexivity.
Defined.

(** Counterexample to C6 as stated: an object of capacity [2^31 + 5] after
    357913942 squares has [freeVert = 2147483652], which no [int32] count can
    express; the draw call of the next frame has the count [-2147483644]. *)
Lemma Render_count_wraps :
  exists w o w',
    run_calls (CallCreate 1%positive 2147483653 "atlas" true
               :: (CallOp <$> (OpAddSquare 1%positive
                                 <$> replicate int32_slot_count square_100)))
              initial_world = Ok tt w /\
    renderObjects w = [1%positive] /\
    heap w !! 1%positive = Some o /\ freeVert o = 2147483652 /\
    Render w = Ok tt w' /\
    gl_calls w' = [GL_ClearColor f32_zero f32_zero f32_zero f32_one; GL_Clear;
                   GL_DrawArrays (Some 1%positive) 0 (-2147483644); GL_Poll].
Proof.
  destruct (@created_then_filled_calls plain_surface initial_world 1%positive 2147483653
              "atlas" true (f32_of_Z 64, f32_of_Z 64)
              (replicate int32_slot_count square_100) eq_refl)
    as (w & o & Hcalls & Hl & Hf & Hr & Hg).
  - rewrite length_replicate, int32_slot_count_Z. lia.
  - rewrite int_max_eq. lia.
  - rewrite length_replicate in Hf. rewrite int32_slot_count_Z in Hf.
    change (6 * 357913942) with 2147483652 in Hf.
    change (renderObjects initial_world ++ [1%positive]) with [1%positive] in Hr.
    pose proof (registry_inv_reachable _ _ _ Hcalls registry_inv_initial) as Hinv.
    destruct (Render_spec w Hinv) as (w' & draws & HR & Hgl & Hall & _ & _).
    exists w, o, w'. split; [exact Hcalls |]. split; [exact Hr |].
    split; [exact Hl |]. split; [exact Hf |]. split; [exact HR |].
    rewrite Hgl, Hg. rewrite Hr in Hall.
    apply Forall2_cons_inv_l in Hall as (c & rest & (o' & Hl' & ->) & Hrest & ->).
    apply Forall2_nil_inv_l in Hrest as ->.
    rewrite Hl in Hl'. injection Hl' as <-. rewrite Hf. reflexivity.
Qed.

(** ** In-place updates *)

Section Updates.
Context `{Surface}.

(** C7.  [ClearSquare(i)] is [ModifyVertSquare(i, 0, 0, 0)]: the two calls
    end in the same state.  On a created object the call returns, leaves
    [freeVert], [maxVert], the drawn count and every texture coordinate as
    they were, and stores one and the same point, the image of pixel
    (0, 0), in all six position slots of the range at [i] (a square of no
    area), and nothing outside that range. *)
Theorem ClearSquare_collapses (w : World) (l : loc) (index : Z) :
  ClearSquare l index w = ModifyVertSquare l index f32_zero f32_zero f32_zero w /\
  forall o, heap w !! l = Some o ->
    exists w' o',
      ClearSquare l index w = Ok tt w' /\
      heap w' !! l = Some o' /\
      freeVert o' = freeVert o /\ maxVert o' = maxVert o /\
      vao_texs (vao o') = vao_texs (vao o) /\
      vao_count (vao o') = vao_count (vao o) /\
      (forall k : nat, (k < 12)%nat ->
         vao_verts (vao o') !! (2 * index + Z.of_nat k) =
         Some (if Nat.even k then (f32_zero - halfWidth w) / halfWidth w
               else (f32_zero - halfHeight w) / halfHeight w)%f32) /\
      (forall k, k < 2 * index \/ 2 * index + 12 <= k ->
         vao_verts (vao o') !! k = vao_verts (vao o) !! k).
Proof.
  split; [reflexivity |]. intros o Hl.
  change (ClearSquare l index w)
    with (ModifyVertSquare l index f32_zero f32_zero f32_zero w).
  rewrite (ModifyVertSquare_eq _ _ _ _ _ _ _ Hl).
  eexists _, _. split; [reflexivity |]. split; [cbn [heap set_heap]; apply lookup_insert_eq |].
  cbn [freeVert maxVert vao set_vao UpdateVertBufferIndex vao_texs vao_count vao_verts].
  do 4 (split; [reflexivity |]). split.
  - intros k Hk. rewrite write_range_inside by (rewrite length_normed_from; exact Hk).
    assert (Hz : ModifyVertSquare_verts f32_zero f32_zero f32_zero !! k = Some f32_zero).
    { do 12 (destruct k as [| k]; [reflexivity |]). lia. }
    rewrite (normed_from_lookup _ _ _ _ _ _ Hz), xorb_false_r. reflexivity.
  - intros k Hk. apply write_range_outside. rewrite length_normed_from.
    change (Z.of_nat (length (ModifyVertSquare_verts f32_zero f32_zero f32_zero))) with 12.
    exact Hk.
Qed.

(** C8.  On a created object, [ModifySquare] ends in the state in which
    [ModifyVertSquare] followed by [ModifyTexSquare] ends, and in the state
    in which [ModifyTexSquare] followed by [ModifyVertSquare] ends; all
    three return. *)
Theorem ModifySquare_either_order (w : World) (l : loc) (o : RenderObject) (index : Z)
    (x y xTex yTex width widthTex : float32) :
  heap w !! l = Some o ->
  ModifySquare l index x y xTex yTex width widthTex w
  = (ModifyVertSquare l index x y width;; ModifyTexSquare l index xTex yTex widthTex) w /\
  ModifySquare l index x y xTex yTex width widthTex w
  = (ModifyTexSquare l index xTex yTex widthTex;; ModifyVertSquare l index x y width) w /\
  exists w', ModifySquare l index x y xTex yTex width widthTex w = Ok tt w'.
Proof.
  intros Hl. split; [reflexivity |].
  unfold ModifySquare, mbind, M_bind, bind.
  rewrite (ModifyVertSquare_eq _ _ _ _ _ _ _ Hl), (ModifyTexSquare_eq _ _ _ _ _ _ _ Hl).
  erewrite ModifyTexSquare_eq by (cbn [heap set_heap]; apply lookup_insert_eq).
  erewrite ModifyVertSquare_eq by (cbn [heap set_heap]; apply lookup_insert_eq).
  split; [| eexists; reflexivity].
  unfold set_heap, add_stdout, halfWidth, halfHeight.
  cbn [heap windowWidth windowHeight renderObjects bound_vao gl_calls stdout
       vao texture set_vao UpdateVertBufferIndex UpdateTexBufferIndex
       vao_size vao_texture vao_defaultShader vao_verts vao_texs vao_count
       vao_translation vao_rotation].
  rewrite !insert_insert_eq. reflexivity.
Qed.

End Updates.

(** Witness of C8: the object of the spec's scenario, moved and
    retextured at index 0. *)
Lemma ModifySquare_either_order_witness :
  heap example_world !! 1%positive = Some example_object /\
  exists w2,
    ModifySquare 1%positive 0 (f32_of_Z 10) (f32_of_Z 20) (f32_of_Z 1) (f32_of_Z 2)
      (f32_of_Z 5) (f32_of_Z 3) example_world = Ok tt w2 /\
    (ModifyTexSquare 1%positive 0 (f32_of_Z 1) (f32_of_Z 2) (f32_of_Z 3);;
     ModifyVertSquare 1%positive 0 (f32_of_Z 10) (f32_of_Z 20) (f32_of_Z 5)) example_world
    = Ok tt w2.
Proof.
  pose proof example_world_heap as Hl. split; [exact Hl |].
  destruct (ModifySquare_either_order example_world 1%positive example_object 0
              (f32_of_Z 10) (f32_of_Z 20) (f32_of_Z 1) (f32_of_Z 2) (f32_of_Z 5)
              (f32_of_Z 3) Hl)
    as (_ & Horder & w2 & Hw2).
  exists w2. split; [exact Hw2 |]. rewrite <- Horder. exact Hw2.
Defined.

(** Witness of C7: index 0 of the object of the spec's scenario, cleared;
    pixel (0, 0) is the point (-1, -1). *)
Lemma ClearSquare_collapses_witness :
  heap example_world !! 1%positive = Some example_object /\
  exists w2 o',
    ClearSquare 1%positive 0 example_world = Ok tt w2 /\
    heap w2 !! 1%positive = Some o' /\ freeVert o' = 0 /\
    vao_verts (vao o') !! 0 = Some f32_minus_one /\
    vao_verts (vao o') !! 11 = Some f32_minus_one.
Proof.
  pose proof example_world_heap as Hl. split; [exact Hl |].
  destruct (ClearSquare_collapses example_world 1%positive 0) as [_ Hclear].
  destruct (Hclear example_object Hl) as (w2 & o' & Hrun & Hl' & Hf & _ & _ & _ & Hin & _).
  destruct example_world_halves as [Hhw Hhh].
  exists w2, o'. split; [exact Hrun |]. split; [exact Hl' |]. split; [exact Hf |].
  split.
  - etransitivity; [exact (Hin 0%nat ltac:(lia)) |]. rewrite Hhw. vm_compute. reflexivity.
  - etransitivity; [exact (Hin 11%nat ltac:(lia)) |]. rewrite Hhh. vm_compute. reflexivity.
Defined.

(** C5, the code at the failing input.  In the spec's scenario
    [AddSquare(100, 100, 0, 0, 50, 1.0)] returns index 0 and stores, as the
    y of its third vertex, the image of [100 - 50]; [ModifyVertSquare(0, 100,
    100, 50)] then stores there the image of [100 + 50]: the two calls build
    different squares from the same position and width. *)
Lemma ModifyVertSquare_other_square :
  exists w1 o1 w2 o2,
    AddSquare' 1%positive square_100 example_world = Ok 0 w1 /\
    heap w1 !! 1%positive = Some o1 /\
    ModifyVertSquare 1%positive 0 (f32_of_Z 100) (f32_of_Z 100) (f32_of_Z 50) w1
      = Ok tt w2 /\
    heap w2 !! 1%positive = Some o2 /\
    vao_verts (vao o1) !! 5 = Some (S754_finite true 13981013 (-24) : float32) /\
    vao_verts (vao o2) !! 5 = Some (S754_finite true 8388608 (-24) : float32) /\
    AddSquare_verts (f32_of_Z 100) (f32_of_Z 100) (f32_of_Z 50) !! 5%nat
      = Some (f32_of_Z 50) /\
    ModifyVertSquare_verts (f32_of_Z 100) (f32_of_Z 100) (f32_of_Z 50) !! 5%nat
      = Some (f32_of_Z 150).
Proof.
  pose proof example_world_heap as Hl. destruct example_world_halves as [Hhw Hhh].
  set (o1 := allocated example_object
               (normed_from (halfWidth example_world) (halfHeight example_world) false
                  (AddSquare_verts (f32_of_Z 100) (f32_of_Z 100) (f32_of_Z 50)))
               (PixToTex (texture example_object)
                  (square_texs (f32_of_Z 0) (f32_of_Z 0) (f32_of_Z 1)))).
  set (w1 := set_heap (<[1%positive := o1]> (heap example_world))
               (add_stdout (printed_from (halfWidth example_world) false
                  (AddSquare_verts (f32_of_Z 100) (f32_of_Z 100) (f32_of_Z 50)))
                  example_world)).
  assert (Hadd : AddSquare' 1%positive square_100 example_world = Ok 0 w1)
    by (rewrite (AddSquare'_eq _ _ _ _ Hl); reflexivity).
  assert (Hl1 : heap w1 !! 1%positive = Some o1) by apply lookup_insert_eq.
  pose proof (ModifyVertSquare_eq w1 1%positive 0 (f32_of_Z 100) (f32_of_Z 100)
                (f32_of_Z 50) o1 Hl1) as Hmod.
  change (halfWidth w1) with (halfWidth example_world) in Hmod.
  change (halfHeight w1) with (halfHeight example_world) in Hmod.
  exists w1, o1. eexists _, _.
  split; [exact Hadd |]. split; [exact Hl1 |]. split; [exact Hmod |].
  split; [cbn [heap set_heap]; apply lookup_insert_eq |].
  subst o1.
  cbn [vao vao_verts allocated set_freeVert set_vao UpdateBufferIndex UpdateVertBufferIndex].
  rewrite Hhw, Hhh.
  split; [| split; [| split; vm_compute; reflexivity]].
  - change 5 with (2 * freeVert example_object + Z.of_nat 5).
    rewrite write_range_inside by (rewrite length_normed_from; cbn; lia).
    vm_compute. reflexivity.
  - change 5 with (2 * 0 + Z.of_nat 5).
    rewrite write_range_inside by (rewrite length_normed_from; cbn; lia).
    vm_compute. reflexivity.
Qed.

(** * Further properties of the code *)

Lemma list_pair_ind {A} (P : list A -> Prop) :
  P [] -> (forall x, P [x]) -> (forall x y l, P l -> P (x :: y :: l)) ->
  forall l, P l.
Proof.
  intros Hnil Hone Hstep.
  assert (Hboth : forall l, P l /\ forall x, P (x :: l)).
  { induction l as [| y l [IH1 IH2]]; [split; auto |].
    split; [apply IH2 |]. intros x. apply Hstep, IH1. }
  intros l. apply Hboth.
Qed.

Section Printing.
Context `{Surface}.

Lemma printed_from_even_positions hw hh coords :
  printed_from hw false coords = even_positions (normed_from hw hh false coords).
Proof.
  induction coords as [| x | x y l IH] using list_pair_ind; [reflexivity .. |].
  cbn [printed_from normed_from negb even_positions]. rewrite IH. reflexivity.
Qed.

Lemma length_even_positions {A} (l : list A) :
  length (even_positions l) = Nat.div2 (S (length l)).
Proof.
  induction l as [| x | x y l IH] using list_pair_ind; [reflexivity .. |].
  cbn [even_positions length]. rewrite IH. reflexivity.
Qed.

(** X1.  [PixToScreen] writes to standard output exactly the normalized x
    values, that is the elements at the even positions of its result, one
    line each and in order, and changes nothing else of the state. *)
Theorem PixToScreen_prints_x (w w' : World) (coords normed : list float32) :
  PixToScreen coords w = Ok normed w' ->
  same_but_stdout w w' /\
  stdout w' = stdout w ++ even_positions normed /\
  length (stdout w') = (length (stdout w) + Nat.div2 (S (length coords)))%nat.
Proof.
  intros Hrun. rewrite PixToScreen_eq in Hrun. injection Hrun as <- <-.
  split; [repeat split |].
  cbn [stdout add_stdout]. rewrite (printed_from_even_positions _ (halfHeight w)).
  split; [reflexivity |].
  rewrite length_app, length_even_positions, length_normed_from. reflexivity.
Qed.

(** X2.  [AddSquare] converts its positions, and so prints its six lines,
    before it dereferences the object and before the overflow check: however
    the call ends (return, overflow panic, nil pointer), standard output has
    grown by exactly the six normalized x values of the square. *)
Theorem AddSquare_prints_first (w : World) (l : loc) (a : SquareArgs) :
  stdout (result_world (AddSquare' l a w)) =
  stdout w ++ even_positions (normed_from (halfWidth w) (halfHeight w) false
                                (AddSquare_verts (sq_x a) (sq_y a) (sq_width a))) /\
  length (stdout (result_world (AddSquare' l a w))) = (length (stdout w) + 6)%nat.
Proof.
  assert (Hout : stdout (result_world (AddSquare' l a w)) =
                 stdout w ++ printed_from (halfWidth w) false
                               (AddSquare_verts (sq_x a) (sq_y a) (sq_width a))).
  { destruct (heap w !! l) as [o |] eqn:Hl.
    - rewrite (AddSquare'_eq _ _ _ _ Hl). cbv zeta. destruct (_ >? _); reflexivity.
    - unfold AddSquare'. rewrite (AddSquare_nil _ _ _ _ _ _ _ _ Hl). reflexivity. }
  rewrite Hout, (printed_from_even_positions _ (halfHeight w)).
  split; [reflexivity |].
  rewrite length_app, length_even_positions, length_normed_from. reflexivity.
Qed.

End Printing.

Section NilObject.
Context `{Surface}.

Lemma load_nil (w : World) l : heap w !! l = None -> load l w = Panic nil_dereference w.
Proof. intros Hl. unfold load. rewrite Hl. reflexivity. Qed.

(** X3.  A method called through a pointer to no created object panics
    with a nil dereference, and at the panic the store, the registry, the
    viewport and the log of graphics calls are as before the call (only
    [AddSquare], [ModifyVertSquare], [ModifySquare] and [ClearSquare] have
    printed by then). *)
Theorem nil_object_panics (w : World) (op : Op) (l : loc) :
  op_target op = Some l -> heap w !! l = None ->
  exists w', run_op op w = Panic nil_dereference w' /\ same_but_stdout w w'.
Proof.
  intros Ht Hl.
  destruct op; cbn [op_target] in Ht; try discriminate Ht; injection Ht as ->;
    cbn [run_op].
  - unfold mbind, M_bind, bind, AddSquare'. rewrite (AddSquare_nil _ _ _ _ _ _ _ _ Hl).
    eexists. split; [reflexivity | repeat split].
  - rewrite (ModifyVertSquare_nil _ _ _ _ _ _ Hl).
    eexists. split; [reflexivity | repeat split].
  - rewrite (ModifyTexSquare_nil _ _ _ _ _ _ Hl).
    eexists. split; [reflexivity | repeat split].
  - unfold ModifySquare, mbind, M_bind, bind. rewrite (ModifyVertSquare_nil _ _ _ _ _ _ Hl).
    eexists. split; [reflexivity | repeat split].
  - unfold ClearSquare. rewrite (ModifyVertSquare_nil _ _ _ _ _ _ Hl).
    eexists. split; [reflexivity | repeat split].
  - unfold RotateSquare, mbind, M_bind, bind. rewrite (load_nil _ _ Hl).
    eexists. split; [reflexivity | repeat split].
  - unfold TranslateSquare, mbind, M_bind, bind. rewrite (load_nil _ _ Hl).
    eexists. split; [reflexivity | repeat split].
  - unfold RenderObject_Render, RenderObject_PrepRender, mbind, M_bind, bind.
    rewrite (load_nil _ _ Hl). eexists. split; [reflexivity | repeat split].
Qed.

End NilObject.

Section Fixed.
Context `{Surface}.

(** X4.  No call after creation changes the capacity or the texture of a
    render object, creates one or removes one, or touches the registry:
    after any sequence of calls that returns, every object of the store is
    still there with the [maxVert] and the [texture] it had, and no other
    object has appeared.  (No bound on the capacity is needed.) *)
Theorem capacity_and_texture_fixed (ops : list Op) (w w' : World) :
  run_ops ops w = Ok tt w' ->
  renderObjects w' = renderObjects w /\
  (forall l o, heap w !! l = Some o ->
     exists o', heap w' !! l = Some o' /\
                maxVert o' = maxVert o /\ texture o' = texture o) /\
  (forall l, heap w !! l = None -> heap w' !! l = None).
Proof.
  intros Hrun.
  assert (Hrel : relates (fun o1 o2 : RenderObject =>
                            maxVert o2 = maxVert o1 /\ texture o2 = texture o1)
                         (run_ops ops)).
  { apply relates_run_ops.
    - auto.
    - intros o1 o2 o3 [Hm1 Ht1] [Hm2 Ht2]. split; congruence.
    - intros o v _. split; reflexivity.
    - intros o verts texs _ _. split; reflexivity. }
  exact (Hrel _ _ _ Hrun).
Qed.

Lemma relates_non_allocating R op :
  (forall o, R o o) -> (forall o1 o2 o3, R o1 o2 -> R o2 o3 -> R o1 o3) ->
  (forall o v, vao_count v = vao_count (vao o) -> R o (set_vao o v)) ->
  allocates op = false -> relates R (run_op op).
Proof.
  intros Hrefl Htrans Hmod Hop. destruct op; try discriminate Hop; cbn [run_op].
  - apply relates_ModifyVertSquare; assumption.
  - apply relates_ModifyTexSquare; assumption.
  - unfold ModifySquare. apply relates_mbind; [assumption | |].
    + apply relates_ModifyVertSquare; assumption.
    + intros _. apply relates_ModifyTexSquare; assumption.
  - apply relates_ModifyVertSquare; assumption.
  - apply relates_RotateSquare; assumption.
  - apply relates_TranslateSquare; assumption.
  - apply relates_RenderObject_Render; assumption.
  - apply relates_Render; assumption.
  - apply relates_unchanged; [assumption |].
    intros w0 u w1 Hrun. injection Hrun as _ <-. split; reflexivity.
Qed.

(** X5.  Only [AddSquare] takes or moves a slot: a sequence of calls
    without [AddSquare] ([Modify*Square], [ClearSquare], the transforms, the
    two [Render], [SetWindowSize]) that returns leaves the [freeVert] of
    every object, and the count of vertices it draws, as they were.  In
    particular [ClearSquare] gives no slot back. *)
Theorem only_AddSquare_allocates (ops : list Op) (w w' : World) :
  Forall (fun op => allocates op = false) ops ->
  run_ops ops w = Ok tt w' ->
  forall l o, heap w !! l = Some o ->
    exists o', heap w' !! l = Some o' /\
               freeVert o' = freeVert o /\ vao_count (vao o') = vao_count (vao o).
Proof.
  intros Hall. revert w. induction Hall as [| op rest Hop _ IH]; intros w Hrun l o Hl.
  - cbn in Hrun. injection Hrun as <-. exists o. auto.
  - cbn [run_ops] in Hrun. unfold mbind, M_bind, bind in Hrun.
    destruct (run_op op w) as [[] w1 | msg w1] eqn:Hop1; [| discriminate Hrun].
    assert (Hrel : relates (fun o1 o2 : RenderObject =>
                              freeVert o2 = freeVert o1 /\
                              vao_count (vao o2) = vao_count (vao o1))
                           (run_op op)).
    { apply relates_non_allocating; [auto | | | exact Hop].
      - intros o1 o2 o3 [Hf1 Hc1] [Hf2 Hc2]. split; congruence.
      - intros o0 v Hv. split; [reflexivity | exact Hv]. }
    destruct (Hrel _ _ _ Hop1) as (_ & Hh & _).
    destruct (Hh _ _ Hl) as (o1 & Hl1 & Hf1 & Hc1).
    destruct (IH _ Hrun _ _ Hl1) as (o' & Hl' & Hf' & Hc').
    exists o'. split; [exact Hl' |]. split; congruence.
Qed.

End Fixed.

Section Slots.
Context `{Surface}.

Lemma AddSquares_returns_iff calls : forall (w : World) l o,
  heap w !! l = Some o ->
  0 <= freeVert o <= maxVert o -> maxVert o + 6 <= int_max ->
  (returns (AddSquares l calls w) = true <->
   freeVert o + 6 * Z.of_nat (length calls) <= maxVert o).
Proof.
  induction calls as [| a rest IH]; intros w l o Hl Hb Hmax.
  - cbn. split; [lia | reflexivity].
  - cbn [AddSquares length]. unfold mbind, M_bind, bind.
    rewrite (AddSquare'_eq _ _ _ _ Hl). cbv zeta.
    assert (Hadd : int_add (freeVert o) 6 = freeVert o + 6)
      by (apply int_add_no_overflow; unfold is_int; rewrite int_min_eq; lia).
    rewrite Hadd. destruct (Z.gtb_spec (freeVert o + 6) (maxVert o)) as [Hgt | Hle].
    + cbn [returns]. split; [discriminate | lia].
    + set (o1 := allocated o _ _). set (w1 := set_heap _ _).
      assert (Hl1 : heap w1 !! l = Some o1) by (subst w1; cbn; apply lookup_insert_eq).
      assert (Hf1 : freeVert o1 = freeVert o + 6) by (subst o1; cbn; exact Hadd).
      assert (Hm1 : maxVert o1 = maxVert o) by reflexivity.
      specialize (IH w1 l o1 Hl1). rewrite Hf1, Hm1 in IH.
      pose proof (IH ltac:(lia) Hmax) as [IH1 IH2].
      destruct (AddSquares l rest w1) as [js w2 | msg w2]; cbn [returns mret M_ret ret] in *.
      * split; [intros _ | reflexivity]. pose proof (IH1 eq_refl). lia.
      * split; [discriminate |]. intros Hfit. apply IH2. lia.
Qed.

(** X6.  A freshly created object of capacity [C], [0 <= C <= 2^63 - 7],
    takes exactly the squares that fit: [n] successive calls of [AddSquare]
    all return if and only if [6 * n <= C].  The [C mod 6] vertices left over
    by a capacity that is no multiple of 6 are never used. *)
Theorem fresh_object_holds_floor (w0 w1 : World) (l : loc) (C : Z) (name : string)
    (sh : bool) (calls : list SquareArgs) :
  0 <= C -> C + 6 <= int_max ->
  CreateRenderObject l C name sh w0 = Ok tt w1 ->
  (returns (AddSquares l calls w1) = true <-> 6 * Z.of_nat (length calls) <= C) /\
  (returns (AddSquares l calls w1) = true <-> Z.of_nat (length calls) <= C / 6).
Proof.
  intros HC0 HC Hcreate.
  destruct (LoadTexture name) as [t |] eqn:Ht;
    [| unfold CreateRenderObject in Hcreate; rewrite Ht in Hcreate; discriminate Hcreate].
  rewrite (CreateRenderObject_eq _ _ _ _ _ _ Ht) in Hcreate. injection Hcreate as <-.
  match goal with
  | |- context [AddSquares l calls ?w] =>
      assert (Hiff : returns (AddSquares l calls w) = true
                     <-> 0 + 6 * Z.of_nat (length calls) <= C)
  end.
  { apply (AddSquares_returns_iff calls _ l
             {| vao := CreateVAO (to_uint32 C) t sh; texture := t;
                freeVert := 0; maxVert := C |}).
    - cbn [heap]. apply lookup_insert_eq.
    - cbn [freeVert maxVert]. lia.
    - exact HC. }
  split; [rewrite Hiff; lia |]. rewrite Hiff.
  pose proof (Z.div_mod C 6 ltac:(lia)). pose proof (Z.mod_pos_bound C 6 ltac:(lia)). lia.
Qed.

(** Squares that fit are written one after the other and stay. *)
Lemma AddSquares_written calls : forall (w w' : World) l o idxs,
  heap w !! l = Some o ->
  0 <= freeVert o ->
  freeVert o + 6 * Z.of_nat (length calls) <= maxVert o ->
  maxVert o <= int_max ->
  AddSquares l calls w = Ok idxs w' ->
  exists o',
    heap w' !! l = Some o' /\
    (forall s, s < 2 * freeVert o -> vao_verts (vao o') !! s = vao_verts (vao o) !! s) /\
    (forall (k : nat) a (j : nat),
       calls !! k = Some a -> (j < 12)%nat ->
       vao_verts (vao o') !! (2 * (freeVert o + 6 * Z.of_nat k) + Z.of_nat j) =
       normed_from (halfWidth w) (halfHeight w) false
         (AddSquare_verts (sq_x a) (sq_y a) (sq_width a)) !! j).
Proof.
  induction calls as [| a rest IH]; intros w w' l o idxs Hl H0 Hfit Hmax Hrun.
  - cbn in Hrun. injection Hrun as _ <-. exists o. split; [exact Hl |].
    split; [reflexivity |]. intros k a j Hk. discriminate Hk.
  - cbn [length] in Hfit. cbn [AddSquares] in Hrun. unfold mbind, M_bind, bind in Hrun.
    rewrite (AddSquare'_eq _ _ _ _ Hl) in Hrun. cbv zeta in Hrun.
    assert (Hadd : int_add (freeVert o) 6 = freeVert o + 6)
      by (apply int_add_no_overflow; unfold is_int; rewrite int_min_eq; lia).
    rewrite Hadd in Hrun.
    destruct (Z.gtb_spec (freeVert o + 6) (maxVert o)) as [Hgt | _]; [lia |].
    set (verts := normed_from _ _ false _) in Hrun.
    set (o1 := allocated o verts _) in Hrun. set (w1 := set_heap _ _) in Hrun.
    assert (Hl1 : heap w1 !! l = Some o1) by (subst w1; cbn; apply lookup_insert_eq).
    assert (Hf1 : freeVert o1 = freeVert o + 6) by (subst o1; cbn; exact Hadd).
    assert (Hlen : length verts = 12%nat) by apply length_AddSquare_normed.
    destruct (AddSquares l rest w1) as [js w2 | msg w2] eqn:Hrest; [| discriminate Hrun].
    cbn [mret M_ret ret] in Hrun. injection Hrun as _ <-.
    destruct (IH w1 w2 l o1 js Hl1) as (o' & Hl' & Hbelow & Hat);
      [lia | subst o1; cbn [maxVert allocated set_freeVert set_vao]; lia
       | subst o1; cbn; lia | exact Hrest |].
    rewrite Hf1 in Hbelow, Hat.
    assert (Hv1 : vao_verts (vao o1) = write_range (vao_verts (vao o)) (2 * freeVert o) verts)
      by reflexivity.
    exists o'. split; [exact Hl' |]. split.
    + intros s Hs. rewrite Hbelow by lia. rewrite Hv1.
      apply write_range_outside. lia.
    + intros k a0 j Hk Hj. destruct k as [| k].
      * cbn in Hk. injection Hk as <-. rewrite Hbelow by lia. rewrite Hv1.
        replace (2 * (freeVert o + 6 * Z.of_nat 0) + Z.of_nat j)
          with (2 * freeVert o + Z.of_nat j) by lia.
        apply write_range_inside. change (j < length verts)%nat.
        rewrite Hlen. exact Hj.
      * change ((a :: rest) !! S k) with (rest !! k) in Hk.
        replace (2 * (freeVert o + 6 * Z.of_nat (S k)) + Z.of_nat j)
          with (2 * (freeVert o + 6 + 6 * Z.of_nat k) + Z.of_nat j) by lia.
        apply (Hat k a0 j Hk Hj).
Qed.

(** X7.  On a freshly created object, successive calls of [AddSquare] that
    fit never overwrite one another: after them, the square of the [k]-th
    call (counted from 0) is found in the six vertices from [6 * k] on, as
    the image under [PixToScreen] of its own corners. *)
Theorem squares_stay_where_written (w0 w1 w2 : World) (l : loc) (C : Z) (name : string)
    (sh : bool) (calls : list SquareArgs) (idxs : list Z) :
  6 * Z.of_nat (length calls) <= C -> C <= int_max ->
  CreateRenderObject l C name sh w0 = Ok tt w1 ->
  AddSquares l calls w1 = Ok idxs w2 ->
  exists o',
    heap w2 !! l = Some o' /\
    forall (k : nat) a (j : nat),
      calls !! k = Some a -> (j < 12)%nat ->
      idxs !! k = Some (6 * Z.of_nat k) /\
      vao_verts (vao o') !! (2 * (6 * Z.of_nat k) + Z.of_nat j) =
      normed_from (halfWidth w0) (halfHeight w0) false
        (AddSquare_verts (sq_x a) (sq_y a) (sq_width a)) !! j.
Proof.
  intros Hfit HC Hcreate Hrun.
  destruct (LoadTexture name) as [t |] eqn:Ht;
    [| unfold CreateRenderObject in Hcreate; rewrite Ht in Hcreate; discriminate Hcreate].
  rewrite (CreateRenderObject_eq _ _ _ _ _ _ Ht) in Hcreate. injection Hcreate as <-.
  pose proof Hrun as Hrun'.
  eapply AddSquares_written in Hrun as (o' & Hl' & _ & Hat);
    [| cbn [heap]; apply lookup_insert_eq | cbn; lia | cbn; lia | cbn; lia].
  eapply AddSquares_returned in Hrun' as (-> & _);
    [| cbn [heap]; apply lookup_insert_eq | cbn; rewrite int_min_eq; lia | cbn; lia].
  exists o'. split; [exact Hl' |]. intros k a j Hk Hj. split.
  - cbn [freeVert]. rewrite slot_indices_lookup by (eapply lookup_lt_Some, Hk).
    f_equal.
  - exact (Hat k a j Hk Hj).
Qed.

(** X11.  Whenever [AddSquare] returns, on an object whose [freeVert] is an
    [int], it returns the [freeVert] from before the call, and leaves in the
    object that value plus 6 in Go's wrapping arithmetic: [freeVert - 6]
    after [freeVert += 6] undoes the addition also where it wraps around. *)
Theorem AddSquare_returns_old_freeVert (w w' : World) (l : loc) (o : RenderObject)
    (a : SquareArgs) (i : Z) :
  heap w !! l = Some o -> is_int (freeVert o) ->
  AddSquare' l a w = Ok i w' ->
  i = freeVert o /\
  exists o', heap w' !! l = Some o' /\ freeVert o' = int_add (freeVert o) 6 /\
             freeVert o' <= maxVert o'.
Proof.
  intros Hl Hint Hrun. rewrite (AddSquare'_eq _ _ _ _ Hl) in Hrun. cbv zeta in Hrun.
  destruct (Z.gtb_spec (int_add (freeVert o) 6) (maxVert o)) as [| Hle];
    [discriminate Hrun |].
  injection Hrun as <- <-. split; [apply int_sub_add, Hint |].
  eexists. split; [cbn [heap set_heap]; apply lookup_insert_eq |].
  split; [reflexivity | exact Hle].
Qed.

End Slots.

Section Registry.
Context `{Surface}.

Lemma run_op_registry op (w w' : World) :
  run_op op w = Ok tt w' -> renderObjects w' = renderObjects w.
Proof.
  intros Hrun.
  assert (Hrel : relates (fun _ _ : RenderObject => True) (run_op op))
    by (apply relates_run_op; auto).
  apply (Hrel _ _ _ Hrun).
Qed.

(** X8.  The registry is append-only and in creation order: after any
    sequence of calls that returns, [renderObjects] is what it was followed
    by the pointers given to [CreateRenderObject], in the order of the
    calls and with repetitions (a pointer created twice is registered
    twice); no other call adds, removes or reorders an entry. *)
Theorem registry_in_creation_order (cs : list Call) (w w' : World) :
  run_calls cs w = Ok tt w' ->
  renderObjects w' = renderObjects w ++ created_locs cs.
Proof.
  revert w. induction cs as [| c rest IH]; intros w Hrun.
  - cbn in Hrun. injection Hrun as <-. cbn. rewrite app_nil_r. reflexivity.
  - cbn [run_calls] in Hrun. unfold mbind, M_bind, bind in Hrun.
    destruct (run_call c w) as [[] w1 | msg w1] eqn:Hc; [| discriminate Hrun].
    rewrite (IH _ Hrun). destruct c as [l size name sh | op]; cbn [run_call created_locs] in *.
    + destruct (LoadTexture name) as [t |] eqn:Ht;
        [| unfold CreateRenderObject in Hc; rewrite Ht in Hc; discriminate Hc].
      rewrite (CreateRenderObject_eq _ _ _ _ _ _ Ht) in Hc. injection Hc as <-.
      cbn [renderObjects]. rewrite <- app_assoc. reflexivity.
    + rewrite (run_op_registry _ _ _ Hc). reflexivity.
Qed.


End Registry.

Section Frames.
Context `{Surface}.

Lemma draw_of_functional (w : World) objs : forall d1 d2,
  Forall2 (draw_of w) objs d1 -> Forall2 (draw_of w) objs d2 -> d1 = d2.
Proof.
  induction objs as [| l rest IH]; intros d1 d2 H1 H2.
  - apply Forall2_nil_inv_l in H1, H2. congruence.
  - apply Forall2_cons_inv_l in H1 as (c1 & r1 & (o1 & Hl1 & ->) & Hr1 & ->).
    apply Forall2_cons_inv_l in H2 as (c2 & r2 & (o2 & Hl2 & ->) & Hr2 & ->).
    rewrite Hl1 in Hl2. injection Hl2 as <-. f_equal. apply IH; assumption.
Qed.

(** One frame, with everything it leaves unchanged. *)
Lemma Render_frame (w : World) :
  registry_inv w ->
  exists w' draws,
    Render w = Ok tt w' /\
    gl_calls w' = gl_calls w ++ frame_calls draws /\
    Forall2 (draw_of w) (renderObjects w) draws /\
    heap w' = heap w /\ renderObjects w' = renderObjects w /\
    windowWidth w' = windowWidth w /\ windowHeight w' = windowHeight w /\
    stdout w' = stdout w.
Proof.
  intros [Hcount Hreg]. unfold Render.
  erewrite bind_Ok by reflexivity.
  erewrite bind_Ok by reflexivity.
  erewrite bind_Ok by reflexivity.
  cbn [renderObjects].
  match goal with
  | |- context [(Render_loop _ ≫= _) ?w1] =>
      destruct (Render_loop_spec (renderObjects w) w1)
        as (w2 & draws & Hrun & Hh & Hr & Hww & Hwh & Hout & Hg & Hall)
  end.
  { intros l Hl. cbn [heap]. apply Hreg, Hl. }
  erewrite bind_Ok by exact Hrun.
  eexists _, draws. split; [reflexivity |].
  cbn [gl_calls heap renderObjects windowWidth windowHeight stdout] in *.
  rewrite Hg, Hh, Hr, Hww, Hwh, Hout. unfold frame_calls.
  split; [rewrite <- !app_assoc; reflexivity |].
  split; [| repeat split].
  eapply Forall2_impl; [exact Hall |]. cbv beta.
  intros l c (o & Hl & ->). exists o. split; [exact Hl |].
  rewrite (Hcount _ _ Hl). reflexivity.
Qed.

(** X10.  [Render] reads the render objects and writes none: in every state
    reached from the initial one, a frame leaves the store, the registry,
    the viewport and standard output as they were, so a second frame right
    after it returns too and issues the very same calls. *)
Theorem Render_repeatable (cs : list Call) (w : World) :
  run_calls cs initial_world = Ok tt w ->
  exists w1 w2 draws,
    Render w = Ok tt w1 /\ Render w1 = Ok tt w2 /\
    gl_calls w1 = gl_calls w ++ frame_calls draws /\
    gl_calls w2 = gl_calls w1 ++ frame_calls draws /\
    length draws = length (renderObjects w) /\
    heap w2 = heap w /\ renderObjects w2 = renderObjects w /\
    windowWidth w2 = windowWidth w /\ windowHeight w2 = windowHeight w /\
    stdout w2 = stdout w.
Proof.
  intros Hreach.
  pose proof (registry_inv_reachable _ _ _ Hreach registry_inv_initial) as Hinv.
  destruct (Render_frame w Hinv)
    as (w1 & d1 & HR1 & Hg1 & Hall1 & Hh1 & Hr1 & Hww1 & Hwh1 & Hout1).
  assert (Hinv1 : registry_inv w1).
  { destruct Hinv as [Hc Hreg]. split.
    - intros l o Hl. rewrite Hh1 in Hl. eauto.
    - intros l Hl. rewrite Hr1 in Hl. rewrite Hh1. auto. }
  destruct (Render_frame w1 Hinv1)
    as (w2 & d2 & HR2 & Hg2 & Hall2 & Hh2 & Hr2 & Hww2 & Hwh2 & Hout2).
  assert (Hsame : d2 = d1).
  { apply (draw_of_functional w (renderObjects w)); [| exact Hall1].
    rewrite Hr1 in Hall2. eapply Forall2_impl; [exact Hall2 |].
    intros l c (o & Hl & ->). rewrite Hh1 in Hl. exists o. auto. }
  subst d2. exists w1, w2, d1.
  repeat split; try assumption; try congruence.
  symmetry. eapply Forall2_length, Hall1.
Qed.

End Frames.

Section Neighbours.
Context `{Surface}.

(** X12.  [ModifyVertSquare] on a created object returns for every index
    (none is checked) and rewrites the positions of the six vertices from
    [index] on, and nothing else: the positions of a square that lies six or
    more vertices away, every texture coordinate, [freeVert], [maxVert] and
    every other object are as before. *)
Theorem ModifyVertSquare_local (w : World) (l : loc) (o : RenderObject) (index : Z)
    (x y width : float32) :
  heap w !! l = Some o ->
  exists w' o',
    ModifyVertSquare l index x y width w = Ok tt w' /\
    heap w' !! l = Some o' /\
    freeVert o' = freeVert o /\ maxVert o' = maxVert o /\
    vao_texs (vao o') = vao_texs (vao o) /\
    (forall j : nat, (j < 12)%nat ->
       vao_verts (vao o') !! (2 * index + Z.of_nat j) =
       normed_from (halfWidth w) (halfHeight w) false
         (ModifyVertSquare_verts x y width) !! j) /\
    (forall index' (j : nat), index' + 6 <= index \/ index + 6 <= index' ->
       (j < 12)%nat ->
       vao_verts (vao o') !! (2 * index' + Z.of_nat j) =
       vao_verts (vao o) !! (2 * index' + Z.of_nat j)) /\
    (forall l', l' <> l -> heap w' !! l' = heap w !! l').
Proof.
  intros Hl. rewrite (ModifyVertSquare_eq _ _ _ _ _ _ _ Hl).
  eexists _, _. split; [reflexivity |].
  split; [cbn [heap set_heap]; apply lookup_insert_eq |].
  cbn [freeVert maxVert vao set_vao UpdateVertBufferIndex vao_texs vao_verts].
  do 3 (split; [reflexivity |]).
  split; [| split].
  - intros j Hj. apply write_range_inside. rewrite length_normed_from. exact Hj.
  - intros index' j Hfar Hj. apply write_range_outside. rewrite length_normed_from.
    change (Z.of_nat (length (ModifyVertSquare_verts x y width))) with 12. lia.
  - intros l' Hne. cbn [heap set_heap]. apply lookup_insert_ne. congruence.
Qed.

End Neighbours.

(** ** The further properties at concrete inputs *)

Lemma PixToScreen_prints_x_witness :
  exists normed w',
    PixToScreen [f32_of_Z 100; f32_of_Z 100] initial_world = Ok normed w' /\
    stdout w' = stdout initial_world ++ even_positions normed /\
    length (stdout w') = 1%nat.
Proof.
  assert (Hrun : exists normed w',
             PixToScreen [f32_of_Z 100; f32_of_Z 100] initial_world = Ok normed w')
    by (rewrite PixToScreen_eq; eauto).
  destruct Hrun as (normed & w' & Hrun).
  destruct (PixToScreen_prints_x initial_world w' _ normed Hrun) as (_ & Hout & Hlen).
  exists normed, w'. auto.
Defined.

Lemma nil_object_panics_witness :
  op_target (OpClearSquare 1%positive 0) = Some 1%positive /\
  heap initial_world !! 1%positive = None /\
  exists w', run_op (OpClearSquare 1%positive 0) initial_world
             = Panic nil_dereference w' /\ same_but_stdout initial_world w'.
Proof.
  assert (Hl : heap initial_world !! 1%positive = None) by apply lookup_empty.
  split; [reflexivity |]. split; [exact Hl |].
  exact (nil_object_panics initial_world (OpClearSquare 1%positive 0) 1%positive eq_refl Hl).
Defined.

Lemma capacity_and_texture_fixed_witness :
  exists w1 w2 o',
    CreateRenderObject 1%positive 12 "atlas" true initial_world = Ok tt w1 /\
    run_ops (OpAddSquare 1%positive <$> [square_100; square_100]) w1 = Ok tt w2 /\
    renderObjects w2 = renderObjects w1 /\
    heap w2 !! 1%positive = Some o' /\ maxVert o' = 12.
Proof.
  destruct (@created_then_filled plain_surface initial_world 1%positive 12 "atlas" true
              (f32_of_Z 64, f32_of_Z 64) [square_100; square_100] eq_refl)
    as (w1 & w2 & o & Hc & Hl1 & Hadd & _); [cbn; lia | rewrite int_max_eq; lia |].
  pose proof (run_ops_AddSquares _ _ _ _ _ Hadd) as Hrun.
  destruct (capacity_and_texture_fixed _ w1 w2 Hrun) as (Hr & Hkeep & _).
  destruct (Hkeep _ _ Hl1) as (o' & Hl' & Hm & _).
  exists w1, w2, o'. auto.
Defined.

Lemma example_cleared :
  exists w2,
    run_ops [OpClearSquare 1%positive 0; OpSetWindowSize (f32_of_Z 1024) (f32_of_Z 768)]
            example_world = Ok tt w2.
Proof.
  cbn [run_ops run_op].
  erewrite bind_Ok by (unfold ClearSquare; apply ModifyVertSquare_eq, example_world_heap).
  erewrite bind_Ok by reflexivity. eexists. reflexivity.
Qed.

Lemma only_AddSquare_allocates_witness :
  exists w2 o',
    run_ops [OpClearSquare 1%positive 0; OpSetWindowSize (f32_of_Z 1024) (f32_of_Z 768)]
            example_world = Ok tt w2 /\
    heap w2 !! 1%positive = Some o' /\ freeVert o' = 0.
Proof.
  destruct example_cleared as [w2 Hrun].
  assert (Hnone : Forall (fun op => allocates op = false)
                    [OpClearSquare 1%positive 0;
                     OpSetWindowSize (f32_of_Z 1024) (f32_of_Z 768)])
    by (repeat constructor).
  destruct (only_AddSquare_allocates _ example_world w2 Hnone Hrun 1%positive
              example_object example_world_heap)
    as (o' & Hl' & Hf & _).
  exists w2, o'. auto.
Defined.

Lemma fresh_object_holds_floor_witness :
  0 <= 12 /\ 12 + 6 <= int_max /\
  (returns (AddSquares 1%positive [square_100; square_100; square_100] example_world) = true
   <-> 6 * 3 <= 12).
Proof.
  assert (H0 : 0 <= 12) by lia.
  assert (HC : 12 + 6 <= int_max) by (rewrite int_max_eq; lia).
  split; [exact H0 |]. split; [exact HC |].
  exact (proj1 (fresh_object_holds_floor initial_world example_world 1%positive 12 "atlas"
                  true [square_100; square_100; square_100] H0 HC example_world_created)).
Defined.

Lemma squares_stay_where_written_witness :
  exists w1 w2 idxs o',
    CreateRenderObject 1%positive 12 "atlas" true initial_world = Ok tt w1 /\
    AddSquares 1%positive [square_100; square_100] w1 = Ok idxs w2 /\
    heap w2 !! 1%positive = Some o' /\
    idxs !! 1%nat = Some 6 /\
    vao_verts (vao o') !! 12 = Some (S754_finite true 12582912 (-24) : float32).
Proof.
  destruct (@created_then_filled plain_surface initial_world 1%positive 12 "atlas" true
              (f32_of_Z 64, f32_of_Z 64) [square_100; square_100] eq_refl)
    as (w1 & w2 & o & Hc & _ & Hadd & _); [cbn; lia | rewrite int_max_eq; lia |].
  destruct (squares_stay_where_written initial_world w1 w2 1%positive 12 "atlas" true
              [square_100; square_100] _ ltac:(cbn; lia) ltac:(rewrite int_max_eq; lia)
              Hc Hadd)
    as (o' & Hl' & Hat).
  destruct (Hat 1%nat square_100 0%nat eq_refl ltac:(lia)) as [Hidx Hv].
  destruct initial_halves as [Hhw Hhh].
  exists w1, w2, (slot_indices 0 (length [square_100; square_100])), o'.
  split; [exact Hc |]. split; [exact Hadd |]. split; [exact Hl' |].
  split; [exact Hidx |].
  etransitivity; [exact Hv |]. rewrite Hhw, Hhh. vm_compute. reflexivity.
Defined.

Lemma AddSquare_returns_old_freeVert_witness :
  heap example_world !! 1%positive = Some example_object /\
  is_int (freeVert example_object) /\
  exists w', AddSquare' 1%positive square_100 example_world = Ok 0 w'.
Proof.
  pose proof example_world_heap as Hl.
  assert (Hint : is_int (freeVert example_object))
    by (unfold is_int; cbn; rewrite int_min_eq, int_max_eq; lia).
  assert (Hrun : exists i w', AddSquare' 1%positive square_100 example_world = Ok i w').
  { rewrite (AddSquare'_eq _ _ _ _ Hl). cbv zeta. eexists _, _. reflexivity. }
  destruct Hrun as (i & w' & Hrun).
  destruct (AddSquare_returns_old_freeVert example_world w' 1%positive example_object
              square_100 i Hl Hint Hrun) as [-> _].
  split; [exact Hl |]. split; [exact Hint |]. exists w'. exact Hrun.
Defined.

Lemma registry_in_creation_order_witness :
  exists w,
    run_calls (CallCreate 1%positive 12 "atlas" true
               :: (CallOp <$> (OpAddSquare 1%positive <$> [square_100])))
              initial_world = Ok tt w /\
    renderObjects w = [1%positive].
Proof.
  destruct (@created_then_filled_calls plain_surface initial_world 1%positive 12 "atlas"
              true (f32_of_Z 64, f32_of_Z 64) [square_100] eq_refl)
    as (w & o & Hcalls & _); [cbn; lia | rewrite int_max_eq; lia |].
  exists w. split; [exact Hcalls |].
  exact (registry_in_creation_order _ initial_world w Hcalls).
Defined.


Lemma Render_repeatable_witness :
  exists w w1 w2,
    run_calls (CallCreate 1%positive 12 "atlas" true
               :: (CallOp <$> (OpAddSquare 1%positive <$> [square_100])))
              initial_world = Ok tt w /\
    Render w = Ok tt w1 /\ Render w1 = Ok tt w2 /\
    heap w2 = heap w /\ stdout w2 = stdout w.
Proof.
  destruct (@created_then_filled_calls plain_surface initial_world 1%positive 12 "atlas"
              true (f32_of_Z 64, f32_of_Z 64) [square_100] eq_refl)
    as (w & o & Hcalls & _); [cbn; lia | rewrite int_max_eq; lia |].
  destruct (Render_repeatable _ w Hcalls)
    as (w1 & w2 & draws & HR1 & HR2 & _ & _ & _ & Hh & _ & _ & _ & Hout).
  exists w, w1, w2. auto.
Defined.

Lemma ModifyVertSquare_local_witness :
  heap example_world !! 1%positive = Some example_object /\
  exists w' o',
    ModifyVertSquare 1%positive 6 (f32_of_Z 10) (f32_of_Z 20) (f32_of_Z 5) example_world
      = Ok tt w' /\
    heap w' !! 1%positive = Some o' /\ freeVert o' = 0 /\
    vao_verts (vao o') !! 0 = vao_verts (vao example_object) !! 0.
Proof.
  pose proof example_world_heap as Hl. split; [exact Hl |].
  destruct (ModifyVertSquare_local example_world 1%positive example_object 6
              (f32_of_Z 10) (f32_of_Z 20) (f32_of_Z 5) Hl)
    as (w' & o' & Hrun & Hl' & Hf & _ & _ & _ & Hfar & _).
  exists w', o'. split; [exact Hrun |]. split; [exact Hl' |]. split; [exact Hf |].
  exact (Hfar 0 0%nat ltac:(lia) ltac:(lia)).
Defined.
